(** * chnn/weather: the chart geometry and annotation engine

    A shallow embedding of the chart code of the repository
    ([src/components/Chart.tsx] and [src/pages/location/[coordinates].tsx])
    and the properties the specification states about it.

    Conventions of the embedding:
    - a JavaScript [number] holding an epoch time or an array index is a [Z];
      a sample value or a pixel coordinate is a [Q]: every finite double is a
      rational and the code only compares, adds and subtracts them;
    - a JavaScript value that may be [undefined] is an [option];
    - an array is a [list]; reading it out of range gives [None];
    - a call that can throw returns a [completion]. *)

From Stdlib Require Import Ascii String ZArith QArith Qabs List Bool Lia Lqa.
Import ListNotations.

Local Open Scope Z_scope.

(** ** JavaScript values and arrays *)

(** [a < b] on numbers, as a boolean. *)
Definition Qlt_bool (a b : Q) : bool := negb (Qle_bool b a).

(** [a < b] where [b] may be [undefined]: the comparison with [undefined]
    is [false] (it converts to NaN). *)
Definition js_lt (a : Q) (b : option Q) : bool :=
  match b with
  | Some b' => Qlt_bool a b'
  | None => false
  end.

Definition js_gt (a : Q) (b : option Q) : bool :=
  match b with
  | Some b' => Qlt_bool b' a
  | None => false
  end.

(** [a !== b] where [a] may be [undefined] and [b] is a number. *)
Definition js_strict_neq (a : option Z) (b : Z) : bool :=
  match a with
  | Some a' => negb (a' =? b)
  | None => true
  end.

(** [arr[k]] for a numeric index [k]. *)
Definition at_index {A : Type} (arr : list A) (k : Z) : option A :=
  if k <? 0 then None else nth_error arr (Z.to_nat k).

(** [x?.f]: the field of a value that may be [undefined]. *)
Definition opt_field {A B : Type} (f : A -> B) (x : option A) : option B :=
  option_map f x.

(** [arr.filter((x, k, whole) => f x k)], the index starting at [k]. *)
Fixpoint filteri_from {A : Type} (f : A -> Z -> bool) (k : Z) (arr : list A)
  : list A :=
  match arr with
  | [] => []
  | x :: rest =>
      if f x k then x :: filteri_from f (k + 1) rest
      else filteri_from f (k + 1) rest
  end.

Definition filteri {A : Type} (f : A -> Z -> bool) (arr : list A) : list A :=
  filteri_from f 0 arr.

(** What a call does: it returns a value or throws. *)
Inductive error : Type :=
| RangeError
| TypeError.

Inductive completion (A : Type) : Type :=
| Returns (a : A)
| Throws (e : error).

Arguments Returns {A} a.
Arguments Throws {A} e.

(** ** The data model ([src/types/index.ts]) *)

Record Point : Type := mkPoint { time : Z; value : Q; i : Z }.

Record TimeSeries : Type := mkTimeSeries { label : string; points : list Point }.

Record Dimensions : Type := mkDimensions { width : Q; height : Q }.

Definition DayBoundaries : Type := list (Z * Z).

(** The invariant of a series: the sample at position [k] carries index [k]
    ([toPoints] builds every series this way). *)
Definition well_indexed_from (k : Z) (ps : list Point) : Prop :=
  forall (n : nat) (p : Point), nth_error ps n = Some p -> i p = k + Z.of_nat n.

Definition well_indexed (ps : list Point) : Prop := well_indexed_from 0 ps.

(** A series given by its values, at one sample per hour. *)
Definition series_of_values_from (k : Z) (vs : list Q) : list Point :=
  (fix go (k : Z) (vs : list Q) : list Point :=
     match vs with
     | [] => []
     | v :: rest => mkPoint (k * 3600000) v k :: go (k + 1) rest
     end) k vs.

Definition series_of_values (vs : list Q) : list Point :=
  series_of_values_from 0 vs.

(** ** The time zone calendar

    [Temporal] and the zone data are a library of the page, not code of the
    repository.  A [ZonedDateTime] of the fixed zone is identified by its
    [epochMilliseconds]; the two calendar operations the segmenter calls are
    the fields of a [ZoneCalendar]. *)

Record ZoneCalendar : Type := mkZoneCalendar {
  startOfDay : Z -> Z;   (* [zdt.startOfDay()] *)
  addP1D : Z -> Z        (* [zdt.add("P1D")] *)
}.

(** What the segmenter relies on: an instant lies in its calendar day, the
    day after a day start begins at a day start, and the instants of one day
    share their day start. *)
Record ZoneLaws (C : ZoneCalendar) : Prop := mkZoneLaws {
  in_own_day : forall t, startOfDay C t <= t < addP1D C (startOfDay C t);
  next_is_day_start :
    forall t, startOfDay C (addP1D C (startOfDay C t)) = addP1D C (startOfDay C t);
  same_day :
    forall t u, startOfDay C t <= u < addP1D C (startOfDay C t) ->
                startOfDay C u = startOfDay C t
}.

(** *** A model of "America/New_York"

    Local days are numbered from 1970-01-01.  [dst n] tells whether daylight
    saving time is in force at the local midnight that begins day [n]; the
    zone changes offset at 02:00 local time only, so local midnight always
    exists and is unambiguous. *)

Definition MS_PER_HOUR : Z := 3600000.
Definition MS_PER_DAY : Z := 86400000.

Section Zone.

Variable dst : Z -> bool.

(** Milliseconds to add to local time to get UTC: 4h under EDT, 5h under EST. *)
Definition offsetAtMidnight (n : Z) : Z :=
  if dst n then 4 * MS_PER_HOUR else 5 * MS_PER_HOUR.

(** The instant of the local midnight that begins day [n]. *)
Definition dayStart (n : Z) : Z := n * MS_PER_DAY + offsetAtMidnight n.

(** The local day an instant falls in. *)
Definition dayOf (t : Z) : Z :=
  let n0 := (t - 4 * MS_PER_HOUR) / MS_PER_DAY in
  if dayStart n0 <=? t then n0 else n0 - 1.

(** The wall-clock reading (milliseconds since local midnight) of instant [t]
    of day [n]: on a day that changes offset, the clock jumps at 02:00. *)
Definition toWall (n t : Z) : Z :=
  let e := t - dayStart n in
  match dst n, dst (n + 1) with
  | false, true => if e <? 2 * MS_PER_HOUR then e else e + MS_PER_HOUR
  | true, false => if e <? 2 * MS_PER_HOUR then e else e - MS_PER_HOUR
  | _, _ => e
  end.

(** The instant of wall-clock reading [w] on day [n]; a reading in the
    skipped hour is taken with the offset before the change and a repeated
    reading is the earlier one ([Temporal]'s "compatible" disambiguation). *)
Definition fromWall (n w : Z) : Z :=
  match dst n, dst (n + 1) with
  | false, true =>
      if w <? 3 * MS_PER_HOUR then dayStart n + w
      else dayStart n + w - MS_PER_HOUR
  | true, false =>
      if w <? 2 * MS_PER_HOUR then dayStart n + w
      else dayStart n + w + MS_PER_HOUR
  | _, _ => dayStart n + w
  end.

Definition zone_startOfDay (t : Z) : Z := dayStart (dayOf t).

(** Same wall-clock reading on the next local day. *)
Definition zone_addP1D (t : Z) : Z :=
  let n := dayOf t in fromWall (n + 1) (toWall n t).

Definition zone : ZoneCalendar := mkZoneCalendar zone_startOfDay zone_addP1D.

End Zone.

(** Year, month and day of local day [n] (proleptic Gregorian calendar). *)
Definition civil_from_days (n : Z) : Z * Z * Z :=
  let z := n + 719468 in
  let era := z / 146097 in
  let doe := z - era * 146097 in
  let yoe := (doe - doe / 1460 + doe / 36524 - doe / 146096) / 365 in
  let y := yoe + era * 400 in
  let doy := doe - (365 * yoe + yoe / 4 - yoe / 100) in
  let mp := (5 * doy + 2) / 153 in
  let d := doy - (153 * mp + 2) / 5 + 1 in
  let m := if mp <? 10 then mp + 3 else mp - 9 in
  (if m <=? 2 then y + 1 else y, m, d).

(** Day of the week of local day [n], Sunday being 0. *)
Definition weekday (n : Z) : Z := (n + 4) mod 7.

(** The United States rule in force since 2007: daylight saving time runs
    from 02:00 on the second Sunday of March to 02:00 on the first Sunday of
    November.  At the midnight beginning a day of March it is in force when
    a Sunday on or after the 8th lies strictly before that day; at the
    midnight beginning a day of November, when no Sunday of the month lies
    strictly before it. *)
Definition us_dst (n : Z) : bool :=
  let '(_, m, d) := civil_from_days n in
  let w := weekday n in
  let previousSunday := d - (if w =? 0 then 7 else w) in
  if m =? 3 then 8 <=? previousSunday
  else if m =? 11 then previousSunday <=? 0
  else (4 <=? m) && (m <=? 10).

Definition NewYork : ZoneCalendar := zone us_dst.

(** ** The day segmenter

    [getDayBoundaries] reads the same in the chart component and in the
    coordinates page. *)

(** [Temporal.Instant.fromEpochMilliseconds(x)]: a value that is not a
    number ([undefined], NaN) is refused with a RangeError. *)
Definition fromEpochMilliseconds (x : option Z) : completion Z :=
  match x with
  | Some t => Returns t
  | None => Throws RangeError
  end.

(** The [while] loop; [fuel] bounds the number of iterations and [None] is
    a loop still running when the fuel is spent. *)
Fixpoint boundaries_loop (C : ZoneCalendar) (fuel : nat) (endMs : Z)
  (currentBoundary : Z) (boundaries : DayBoundaries) : option DayBoundaries :=
  if endMs - currentBoundary >? 0 then
    match fuel with
    | O => None
    | S fuel' =>
        let boundaryStart := currentBoundary in
        let currentBoundary' := addP1D C currentBoundary in
        let boundaryEnd := currentBoundary' in
        boundaries_loop C fuel' endMs currentBoundary'
          (boundaries ++ [(boundaryStart, boundaryEnd)])
    end
  else Some boundaries.

Definition getDayBoundaries (C : ZoneCalendar) (fuel : nat)
  (startTime endTime : option Z) : option (completion DayBoundaries) :=
  match fromEpochMilliseconds startTime with
  | Throws err => Some (Throws err)
  | Returns startMs =>
      match fromEpochMilliseconds endTime with
      | Throws err => Some (Throws err)
      | Returns endMs =>
          option_map Returns
            (boundaries_loop C fuel endMs (startOfDay C startMs) [])
      end
  end.

(** ** What the code uses of d3 *)

(** [extent(values)]: the smallest and the largest value, both [undefined]
    when there is no value. *)
Fixpoint extent_loop {A : Type} (lt : A -> A -> bool) (acc : option (A * A))
  (values : list A) : option (A * A) :=
  match values with
  | [] => acc
  | v :: rest =>
      match acc with
      | None => extent_loop lt (Some (v, v)) rest
      | Some (mn, mx) =>
          extent_loop lt
            (Some (if lt v mn then v else mn, if lt mx v then v else mx)) rest
      end
  end.

Definition extent {A : Type} (lt : A -> A -> bool) (values : list A)
  : option A * option A :=
  match extent_loop lt None values with
  | Some (mn, mx) => (Some mn, Some mx)
  | None => (None, None)
  end.

(** [minIndex(values)]: the position of the first smallest value, -1 when
    there is no value. *)
Fixpoint minIndex_loop (values : list Q) (index : Z) (mn : option Q)
  (found : Z) : Z :=
  match values with
  | [] => found
  | v :: rest =>
      let index' := index + 1 in
      match mn with
      | None => minIndex_loop rest index' (Some v) index'
      | Some m =>
          if Qlt_bool v m then minIndex_loop rest index' (Some v) index'
          else minIndex_loop rest index' mn found
      end
  end.

Definition minIndex (values : list Q) : Z := minIndex_loop values (-1) None (-1).

(** [maxIndex(values)]: the position of the first largest value, -1 when
    there is no value. *)
Fixpoint maxIndex_loop (values : list Q) (index : Z) (mx : option Q)
  (found : Z) : Z :=
  match values with
  | [] => found
  | v :: rest =>
      let index' := index + 1 in
      match mx with
      | None => maxIndex_loop rest index' (Some v) index'
      | Some m =>
          if Qlt_bool m v then maxIndex_loop rest index' (Some v) index'
          else maxIndex_loop rest index' mx found
      end
  end.

Definition maxIndex (values : list Q) : Z := maxIndex_loop values (-1) None (-1).

(** A continuous scale with its domain and range set, exact on rationals:
    the value is normalised over the domain (to the middle when the domain
    is a single value) and interpolated over the range. *)
Definition linear_scale (domain : Q * Q) (range : Q * Q) (x : Q) : Q :=
  let '(d0, d1) := domain in
  let '(r0, r1) := range in
  let t := if Qeq_bool d0 d1 then (1 # 2)%Q else ((x - d0) / (d1 - d0))%Q in
  (r0 * (1 - t) + r1 * t)%Q.

(** ** Label placement

    [getPointLabelPositioning] reads the same in both files but for the
    offset [D] ([const D = 10] in the chart component, the literal 6 in the
    coordinates page). *)

Inductive TextAnchor : Type := anchor_start | anchor_middle | anchor_end.

Inductive AlignmentBaseline : Type := baseline_hanging | baseline_middle.

Record Positioning : Type := mkPositioning {
  dx : Q;
  dy : Q;
  textAnchor : option TextAnchor;
  alignmentBaseline : option AlignmentBaseline
}.

(** Reading [.value] of a neighbour that is [undefined] throws. *)
Definition getPointLabelPositioning_with (D : Q) (pt : Point) (ps : list Point)
  : completion Positioning :=
  let p := value pt in
  if (i pt =? 0) || (i pt =? Z.of_nat (length ps) - 1) then
    Returns (mkPositioning 0 0 None None)
  else
    match at_index ps (i pt - 1), at_index ps (i pt + 1) with
    | Some q0, Some q1 =>
        let p0 := value q0 in
        let p1 := value q1 in
        if Qlt_bool p0 p && Qlt_bool p1 p then
          Returns (mkPositioning 0 (- D) (Some anchor_middle) None)
        else if Qlt_bool p p0 && Qlt_bool p p1 then
          Returns (mkPositioning 0 D (Some anchor_middle) (Some baseline_hanging))
        else if Qlt_bool p0 p && Qlt_bool p p1 then
          Returns (mkPositioning (- D) (- D) (Some anchor_end) (Some baseline_middle))
        else if Qlt_bool p p0 && Qlt_bool p1 p then
          Returns (mkPositioning D (- D) (Some anchor_start) (Some baseline_middle))
        else
          Returns (mkPositioning 0 0 None None)
    | _, _ => Throws TypeError
    end.

(** ** JavaScript strings *)

(** [s.indexOf(c)] for a one-character [c]: the position of its first
    occurrence, -1 when there is none. *)
Fixpoint indexOf_from (c : ascii) (s : string) (k : Z) : Z :=
  match s with
  | EmptyString => -1
  | String a rest => if Ascii.eqb a c then k else indexOf_from c rest (k + 1)
  end.

Definition indexOf (s : string) (c : ascii) : Z := indexOf_from c s 0.

(** How [slice] reads an index: a negative one counts from the end, and
    both kinds are kept within the string. *)
Definition sliceIndex (len k : Z) : Z :=
  if k <? 0 then Z.max (len + k) 0 else Z.min k len.

(** [s.slice(startIndex, endIndex)]. *)
Definition js_slice (s : string) (startIndex endIndex : Z) : string :=
  let len := Z.of_nat (String.length s) in
  let from := sliceIndex len startIndex in
  let to := sliceIndex len endIndex in
  substring (Z.to_nat from) (Z.to_nat (Z.max (to - from) 0)) s.

(** [arr.map((x, k) => f x k)], the index starting at [k]. *)
Fixpoint mapi_from {A B : Type} (f : A -> Z -> B) (k : Z) (arr : list A)
  : list B :=
  match arr with
  | [] => []
  | x :: rest => f x k :: mapi_from f (k + 1) rest
  end.

Definition mapi {A B : Type} (f : A -> Z -> B) (arr : list A) : list B :=
  mapi_from f 0 arr.

(** ** The chart component ([src/components/Chart.tsx]) *)

Module ChartComponent.

(** The callback of the first [filter] of [getExtremePoints]. *)
Definition isInflection (pts : list Point) (p : Point) (k : Z) : bool :=
  (js_lt (value p) (opt_field value (at_index pts (k - 1)))
   && js_lt (value p) (opt_field value (at_index pts (k + 1))))
  || (js_gt (value p) (opt_field value (at_index pts (k - 1)))
      && js_gt (value p) (opt_field value (at_index pts (k + 1)))).

(** The callback of the second [filter]; [ps] is the array being filtered. *)
Definition notTooClose (ps : list Point) (p : Point) (k : Z) : bool :=
  js_strict_neq (opt_field i (at_index ps (k - 1))) (i p - 1).

(** The samples the first [filter] keeps. *)
Definition flagged (pts : list Point) : list Point :=
  filteri (isInflection pts) pts.

Definition getExtremePoints (pts : list Point) : list Point :=
  let ps := flagged pts in
  filteri (notTooClose ps) ps.

(** Whether position [k] of the series holds a flagged sample. *)
Definition flaggedAt (pts : list Point) (k : Z) : bool :=
  match at_index pts k with
  | Some p => isInflection pts p k
  | None => false
  end.

Definition D : Q := 10%Q.

Definition getPointLabelPositioning : Point -> list Point -> completion Positioning :=
  getPointLabelPositioning_with D.

(** What [PointLabel] draws: the marker at [(cx, cy)] and the text at
    [(text_x, text_y)]; the text shows the value of [labelled]. *)
Record LabelNode : Type := mkLabelNode {
  cx : Q;
  cy : Q;
  text_x : Q;
  text_y : Q;
  label_anchor : option TextAnchor;
  label_baseline : option AlignmentBaseline;
  labelled : Point
}.

Definition MIN_SPACE_FOR_INNER_LABELS : Q := 30%Q.

(** [PointLabel]; [None] is the [null] of a label that is not drawn. *)
Definition PointLabel (point : Point) (pts : list Point) (x y : Q)
  (width height : Q) : completion (option LabelNode) :=
  match getPointLabelPositioning point pts with
  | Throws err => Throws err
  | Returns pos =>
      if Qlt_bool x MIN_SPACE_FOR_INNER_LABELS
         || Qlt_bool y MIN_SPACE_FOR_INNER_LABELS
         || Qlt_bool (Qabs (width - x)) MIN_SPACE_FOR_INNER_LABELS
         || Qlt_bool (Qabs (height - y)) MIN_SPACE_FOR_INNER_LABELS
      then Returns None
      else
        Returns (Some (mkLabelNode x y (x + dx pos) (y + dy pos)
                         (textAnchor pos) (alignmentBaseline pos) point))
  end.

(** The labels of a series: every label is evaluated in turn and the ones
    that are not [null] are drawn. *)
Fixpoint drawLabels {A : Type} (ls : list (completion (option A)))
  : completion (list A) :=
  match ls with
  | [] => Returns []
  | Throws err :: _ => Throws err
  | Returns o :: rest =>
      match drawLabels rest with
      | Throws err => Throws err
      | Returns nodes =>
          Returns (match o with Some node => node :: nodes | None => nodes end)
      end
  end.

(** The results of calls made in turn, up to the first one that throws. *)
Fixpoint allReturned {A : Type} (calls : list (completion A))
  : completion (list A) :=
  match calls with
  | [] => Returns []
  | Throws err :: _ => Throws err
  | Returns a :: rest =>
      match allReturned rest with
      | Throws err => Throws err
      | Returns results => Returns (a :: results)
      end
  end.

(** An object built by [{...acc, [key]: v}] is kept as the list of its
    assignments, the latest first; [obj[key]] on an own key reads the latest
    assignment to it. *)
Fixpoint ownProperty {A : Type} (key : string) (obj : list (string * A))
  : option A :=
  match obj with
  | [] => None
  | (k, v) :: rest => if String.eqb k key then Some v else ownProperty key rest
  end.

(** [extremePointsByTs]: the [reduce] of [Chart], one assignment per series,
    keyed by the label of the series. *)
Definition extremePointsByTs (tss : list TimeSeries)
  : list (string * list Point) :=
  fold_left
    (fun acc ts => (label ts, getExtremePoints (points ts)) :: acc) tss [].

(** A colour scale as [Chart] uses it: called on a value it returns a colour
    (a CSS string) or throws; the flag tells whether it is called as a member
    of the table ([COLOR_SCALE_BY_TS_LABEL[label](v)]) or on its own
    ([colorScale(y)]). [None] is [undefined], and calling it is a
    [TypeError]. *)
Definition ColorScale : Type := bool -> Q -> completion string.

Definition callColorScale (colorScale : option ColorScale) (asMember : bool)
  (v : Q) : completion string :=
  match colorScale with
  | Some scale => scale asMember v
  | None => Throws TypeError
  end.

Section Scene.

(** d3's scale constructors, with domain and range set: [scaleTime] over the
    time domain, [scaleLinear] over the value domain. *)
Variable scaleTime : option Z * option Z -> Q * Q -> Z -> Q.
Variable scaleLinear : option Q * option Q -> Q * Q -> Q -> Q.

(** [scaleSequential(interpolateTurbo).domain(d)]: d3's colour of a value. *)
Variable turboScale : Q * Q -> Q -> string.

(** What a key that is no own key of [COLOR_SCALE_BY_TS_LABEL] reads: the
    member of that name the table inherits from [Object.prototype], if there
    is one. *)
Variable inheritedMember : string -> option ColorScale.

(** [range(d0, d1, (d1 - d0) / 10)]: the values d3 gives for the gradient of
    a series whose values span from [d0] to [d1]. *)
Variable gradientValues : option Q -> option Q -> list Q.

(** [COLOR_SCALE_BY_TS_LABEL[tsLabel]]. *)
Definition COLOR_SCALE_BY_TS_LABEL (tsLabel : string) : option ColorScale :=
  if String.eqb tsLabel "Temperature" then
    Some (fun _ v => Returns (turboScale (0%Q, 35%Q) v))
  else if String.eqb tsLabel "Dew Point" then
    Some (fun _ v => Returns (turboScale (0%Q, 21%Q) v))
  else inheritedMember tsLabel.

(** [TsPath]: the colours of the gradient stops, then the vertices handed to
    the line generator. *)
Definition TsPath (pts : list Point) (xScale : Z -> Q) (yScale : Q -> Q)
  (colorScale : option ColorScale) : completion (list string * list (Q * Q)) :=
  let '(d0, d1) := extent Qlt_bool (map value pts) in
  match allReturned
          (map (fun y => callColorScale colorScale false y)
             (gradientValues d0 d1)) with
  | Throws err => Throws err
  | Returns stops =>
      Returns (stops, map (fun d => (xScale (time d), yScale (value d))) pts)
  end.

(** What [Chart] draws for one series: the path, and the labels with their
    colours. *)
Record SeriesScene : Type := mkSeriesScene {
  path : completion (list string * list (Q * Q));
  labels : completion (list (LabelNode * string))
}.

Definition chartWidth (w : Q) : Q := if Qlt_bool w 1000 then 1200%Q else w.

Definition xDomain (tss : list TimeSeries) : option Z * option Z :=
  extent Z.ltb (map time (flat_map points tss)).

Definition yDomain (tss : list TimeSeries) : option Q * option Q :=
  extent Qlt_bool (map value (flat_map points tss)).

Definition xScale_of (tss : list TimeSeries) (dims : Dimensions) : Z -> Q :=
  let w := chartWidth (width dims) in
  let innerWidth := (w - 0 - 0)%Q in
  scaleTime (xDomain tss) (0%Q, (innerWidth - 0)%Q).

Definition yScale_of (tss : list TimeSeries) (dims : Dimensions) : Q -> Q :=
  let innerHeight := (height dims - 0 - 18)%Q in
  scaleLinear (yDomain tss) ((innerHeight - 30)%Q, 30%Q).

(** The day boundaries [Chart] asks for. *)
Definition Chart_dayBoundaries (C : ZoneCalendar) (fuel : nat)
  (tss : list TimeSeries) : option (completion DayBoundaries) :=
  getDayBoundaries C fuel (fst (xDomain tss)) (snd (xDomain tss)).

(** One label of a series: its colour is computed first, from the table
    entry of the label of the series, then [PointLabel] is evaluated. *)
Definition Chart_label (ts : TimeSeries) (xScale : Z -> Q) (yScale : Q -> Q)
  (w h : Q) (p : Point) : completion (option (LabelNode * string)) :=
  match callColorScale (COLOR_SCALE_BY_TS_LABEL (label ts)) true (value p) with
  | Throws err => Throws err
  | Returns color =>
      match PointLabel p (points ts) (xScale (time p)) (yScale (value p)) w h with
      | Throws err => Throws err
      | Returns node => Returns (option_map (fun n => (n, color)) node)
      end
  end.

(** What [Chart] draws for one of its series: the labels are those of the
    entry [extremePointsByTs] holds for the label of the series, placed among
    the samples of the series itself. *)
Definition Chart_series (tss : list TimeSeries) (dims : Dimensions)
  (ts : TimeSeries) : SeriesScene :=
  let w := chartWidth (width dims) in
  let xScale := xScale_of tss dims in
  let yScale := yScale_of tss dims in
  mkSeriesScene
    (TsPath (points ts) xScale yScale (COLOR_SCALE_BY_TS_LABEL (label ts)))
    (match ownProperty (label ts) (extremePointsByTs tss) with
     | None => Throws TypeError
     | Some extremePoints =>
         drawLabels
           (map (Chart_label ts xScale yScale w (height dims)) extremePoints)
     end).

End Scene.

End ChartComponent.

(** ** The coordinates page ([src/pages/location/[coordinates].tsx]) *)

Module CoordinatesPage.

Definition pointsInBoundary (boundary : Z * Z) (pts : list Point) : list Point :=
  let '(boundaryStart, boundaryEnd) := boundary in
  filter (fun p => (boundaryStart <=? time p) && (time p <? boundaryEnd)) pts.

(** The result is declared [Point[]]; an entry read at position -1 is
    [undefined]. *)
Definition getExtremePoints (dayBoundaries : DayBoundaries) (pts : list Point)
  : list (option Point) :=
  flat_map
    (fun boundary =>
       let inBoundary := pointsInBoundary boundary pts in
       [ at_index inBoundary (minIndex (map value inBoundary));
         at_index inBoundary (maxIndex (map value inBoundary)) ])
    dayBoundaries.

Definition getPointLabelPositioning : Point -> list Point -> completion Positioning :=
  getPointLabelPositioning_with 6%Q.

(** The placement [Chart] computes for each entry of the extreme points;
    taking [i] and [value] out of an entry that is [undefined] throws. *)
Definition labelPositioning (entry : option Point) (pts : list Point)
  : completion Positioning :=
  match entry with
  | Some p => getPointLabelPositioning p pts
  | None => Throws TypeError
  end.

End CoordinatesPage.

(** ** The location pages: [toPoints]

    [toPoints] reads the same in [src/pages/location/[location].tsx] and in
    [src/pages/location/[coordinates].tsx].  [Date.parse] is taken as a
    parameter; it answers NaN, here [None], on a string it cannot read. *)

Module LocationPage.

(** An entry of the values of the weather feed. *)
Record GridValue : Type := mkGridValue { validTime : string; gridValue : Q }.

(** A point as [toPoints] builds it: its time is NaN when the time stamp
    was not read. *)
Record RawPoint : Type := mkRawPoint {
  raw_time : option Z;
  raw_value : Q;
  raw_i : Z
}.

(** [validTime.slice(0, validTime.indexOf("/"))]. *)
Definition timePart (validTime : string) : string :=
  js_slice validTime 0 (indexOf validTime "/"%char).

Definition toPoints (Date_parse : string -> option Z) (values : list GridValue)
  : list RawPoint :=
  mapi (fun v k =>
          mkRawPoint (Date_parse (timePart (validTime v))) (gridValue v) k)
    values.

(** The points as the chart code of the embedding takes them, when every
    time was read. *)
Definition asPoint (rp : RawPoint) : option Point :=
  match raw_time rp with
  | Some t => Some (mkPoint t (raw_value rp) (raw_i rp))
  | None => None
  end.

Fixpoint asPoints (rps : list RawPoint) : option (list Point) :=
  match rps with
  | [] => Some []
  | rp :: rest =>
      match asPoint rp, asPoints rest with
      | Some p, Some ps => Some (p :: ps)
      | _, _ => None
      end
  end.

End LocationPage.

(** ** Sample inputs *)

Definition example_13251 : list Point :=
  series_of_values [1%Q; 3%Q; 2%Q; 5%Q; 1%Q].

Definition example_5193 : list Point :=
  series_of_values [5%Q; 1%Q; 9%Q; 3%Q].

Definition example_13221 : list Point :=
  series_of_values [1%Q; 3%Q; 2%Q; 2%Q; 1%Q].

(** The sample at index 1 of [example_13221]. *)
Definition example_peak : Point := mkPoint 3600000 3 1.

(** A rising series, and its sample at index 1. *)
Definition example_1231 : list Point :=
  series_of_values [1%Q; 2%Q; 3%Q; 1%Q].

Definition example_rising : Point := mkPoint 3600000 2 1.

(** The sample at index 2 of [example_13221], whose right neighbour has
    the same value. *)
Definition example_plateau : Point := mkPoint 7200000 2 2.

(** A series that never decreases. *)
Definition example_1233 : list Point :=
  series_of_values [1%Q; 2%Q; 3%Q; 3%Q].

(** A peak at index 1, a flat stretch, and a dip at index 5. *)
Definition example_zigzag : list Point :=
  series_of_values [1%Q; 3%Q; 2%Q; 2%Q; 2%Q; 0%Q; 4%Q].

(** A series with its smallest and its largest value twice. *)
Definition example_1331 : list Point :=
  series_of_values [1%Q; 3%Q; 3%Q; 1%Q].

(** Noon UTC of 10 January 2024, and the local midnight that begins
    12 January 2024 in New York (05:00 UTC). *)
Definition example_noon : Z := 1704888000000.

Definition example_midnight : Z := 1705035600000.

(** 9 March 2024 18:00 UTC and 11 March 2024 18:00 UTC: the clocks go
    forward in between. *)
Definition example_before_change : Z := 1710007200000.

Definition example_after_change : Z := 1710180000000.

(** One day of milliseconds from the epoch, as a bucket, and the next. *)
Definition example_bucket : Z * Z := (0, 86400000).

Definition example_next_bucket : Z * Z := (86400000, 172800000).

Definition example_single : list Point := series_of_values [7%Q].

(** A series whose only sample lies in [example_next_bucket]. *)
Definition example_second_day : list Point := [mkPoint 90000000 4 0].

(** The samples of [example_5193], all in [example_bucket], followed by a
    lower and a higher value in [example_next_bucket]. *)
Definition example_5193_then_0_12 : list Point :=
  example_5193 ++ [mkPoint 90000000 0 4; mkPoint 93600000 12 5].

(** One sample in [example_bucket] and one in [example_next_bucket]. *)
Definition example_one_a_day : list Point :=
  [mkPoint 3600000 7 0; mkPoint 90000000 4 1].

(** ** Vocabulary of the unit change *)

(** A sample with its value sent through [f], time and index kept, and a
    series with all its values sent through [f]. *)
Definition withValue (f : Q -> Q) (p : Point) : Point :=
  mkPoint (time p) (f (value p)) (i p).

Definition withValues (f : Q -> Q) (pts : list Point) : list Point :=
  map (withValue f) pts.

(** A strictly increasing change of unit. *)
Definition example_unit (v : Q) : Q := (2 * v + 1)%Q.

(** ** Vocabulary of the label visibility rule *)


(** A scale sends the values of its domain between the ends of its range. *)
Definition between (r0 r1 y : Q) : Prop :=
  (r0 <= y <= r1)%Q \/ (r1 <= y <= r0)%Q.

Definition time_scale_in_range
  (scaleTime : option Z * option Z -> Q * Q -> Z -> Q) : Prop :=
  forall (d0 d1 : Z) (r0 r1 : Q) (t : Z),
    d0 <= t <= d1 -> between r0 r1 (scaleTime (Some d0, Some d1) (r0, r1) t).

Definition value_scale_in_range
  (scaleLinear : option Q * option Q -> Q * Q -> Q -> Q) : Prop :=
  forall (d0 d1 r0 r1 v : Q),
    (d0 <= v <= d1)%Q ->
    between r0 r1 (scaleLinear (Some d0, Some d1) (r0, r1) v).

(** The scales of d3 computed exactly; without a domain there is nothing
    to map. *)
Definition exact_scaleTime (domain : option Z * option Z) (range : Q * Q)
  (t : Z) : Q :=
  match domain with
  | (Some d0, Some d1) => linear_scale (inject_Z d0, inject_Z d1) range (inject_Z t)
  | _ => 0%Q
  end.

Definition exact_scaleLinear (domain : option Q * option Q) (range : Q * Q)
  (v : Q) : Q :=
  match domain with
  | (Some d0, Some d1) => linear_scale (d0, d1) range v
  | _ => 0%Q
  end.

(** The labels [COLOR_SCALE_BY_TS_LABEL] holds a colour scale for. *)
Definition registered_label (tsLabel : string) : Prop :=
  tsLabel = "Temperature"%string \/ tsLabel = "Dew Point"%string.

(** Ten gradient values from [d0] up to [d1], computed exactly; none when
    the values do not span an interval. *)
Definition exact_gradientValues (d0 d1 : option Q) : list Q :=
  match d0, d1 with
  | Some a, Some b =>
      if Qlt_bool a b then
        map (fun k => (a + inject_Z k * ((b - a) / 10))%Q)
          [0; 1; 2; 3; 4; 5; 6; 7; 8; 9]
      else []
  | _, _ => []
  end.

(** A two-colour stand-in for d3's colour scale, and a table that inherits
    no member. *)
Definition example_turboScale (domain : Q * Q) (v : Q) : string :=
  if Qlt_bool (v + v) (fst domain + snd domain) then "blue"%string
  else "red"%string.

Definition example_no_inherited (key : string)
  : option ChartComponent.ColorScale := None.

(** Fifty hourly samples with a peak at index 1, and the chart of that one
    series in a viewport of 1200 by 400 pixels: the peak is drawn 1200/49
    pixels from the left edge. *)
Definition example_early_peak : TimeSeries :=
  mkTimeSeries "Temperature"
    (series_of_values (1%Q :: 3%Q :: repeat 1%Q 48)).

Definition example_chart : list TimeSeries := [example_early_peak].

Definition example_dims : Dimensions := mkDimensions 1200 400.

(** A series with a label that is not in the table, its peak in the middle
    of fifty hourly samples; and a flat series labelled as
    [example_early_peak]. *)
Definition example_wind : TimeSeries :=
  mkTimeSeries "Wind"
    (series_of_values (repeat 1%Q 25 ++ 3%Q :: repeat 1%Q 24)).

Definition example_flat : TimeSeries :=
  mkTimeSeries "Temperature" (series_of_values (repeat 1%Q 50)).

(** The two series of the page, without a sample. *)
Definition example_no_samples : list TimeSeries :=
  [mkTimeSeries "Temperature" []; mkTimeSeries "Dew Point" []].

(** ** Vocabulary of the day segmentation properties *)

(** [u] lies in the half-open interval [iv]. *)
Definition within (iv : Z * Z) (u : Z) : Prop := fst iv <= u < snd iv.

(** Each interval ends where the next one starts. *)
Definition contiguous (l : DayBoundaries) : Prop :=
  forall (n : nat) (a b : Z * Z),
    nth_error l n = Some a -> nth_error l (S n) = Some b -> snd a = fst b.

(** No instant lies in two intervals of the sequence. *)
Definition non_overlapping (l : DayBoundaries) : Prop :=
  forall (m n : nat) (a b : Z * Z),
    m <> n -> nth_error l m = Some a -> nth_error l n = Some b ->
    forall u, ~ (within a u /\ within b u).

(** The interval is one calendar day of the zone: it runs from a day start
    to the next and holds exactly the instants of that day. *)
Definition one_calendar_day (C : ZoneCalendar) (iv : Z * Z) : Prop :=
  snd iv = addP1D C (fst iv) /\
  forall u, within iv u <-> startOfDay C u = fst iv.

(** The union of the intervals is exactly [[lo, hi)]. *)
Definition covers (l : DayBoundaries) (lo hi : Z) : Prop :=
  forall u, (exists iv, In iv l /\ within iv u) <-> lo <= u < hi.

(** [c] is the instant a calendar day of the zone begins at. *)
Definition is_day_start (C : ZoneCalendar) (c : Z) : Prop := startOfDay C c = c.

(** The first day start at or after [t]. *)
Definition day_start_from (C : ZoneCalendar) (t : Z) : Z :=
  if startOfDay C t =? t then t else addP1D C (startOfDay C t).

(** Successive days from [cur], the last one ending at [last]. *)
Inductive day_chain (C : ZoneCalendar) : Z -> DayBoundaries -> Z -> Prop :=
| day_chain_nil (cur : Z) : day_chain C cur [] cur
| day_chain_cons (cur : Z) (l : DayBoundaries) (last : Z) :
    day_chain C (addP1D C cur) l last ->
    day_chain C cur ((cur, addP1D C cur) :: l) last.

(** * Properties *)

(** ** Numbers and arrays *)

Lemma Qlt_bool_iff (a b : Q) : Qlt_bool a b = true <-> (a < b)%Q.
Proof.
  unfold Qlt_bool. rewrite negb_true_iff.
  split; intros H.
  - apply Qnot_le_lt. intros Hle. apply Qle_bool_iff in Hle. congruence.
  - destruct (Qle_bool b a) eqn:E; [|reflexivity].
    apply Qle_bool_iff in E. exfalso. exact (Qlt_not_le _ _ H E).
Qed.

Lemma Qlt_bool_false_iff (a b : Q) : Qlt_bool a b = false <-> (b <= a)%Q.
Proof.
  unfold Qlt_bool. rewrite negb_false_iff. apply Qle_bool_iff.
Qed.

Lemma at_index_of_nat {A : Type} (arr : list A) (n : nat) :
  at_index arr (Z.of_nat n) = nth_error arr n.
Proof.
  unfold at_index. destruct (Z.ltb_spec (Z.of_nat n) 0) as [H|H]; [lia|].
  now rewrite Nat2Z.id.
Qed.

Lemma at_index_Some {A : Type} (arr : list A) (k : Z) (x : A) :
  at_index arr k = Some x <->
  exists n : nat, k = Z.of_nat n /\ nth_error arr n = Some x.
Proof.
  split.
  - unfold at_index. destruct (Z.ltb_spec k 0) as [H|H]; [discriminate|].
    intros E. exists (Z.to_nat k). split; [lia|exact E].
  - intros (n & -> & E). now rewrite at_index_of_nat.
Qed.

Lemma at_index_bounds {A : Type} (arr : list A) (k : Z) (x : A) :
  at_index arr k = Some x -> 0 <= k < Z.of_nat (length arr).
Proof.
  intros (n & -> & E)%at_index_Some.
  assert (n < length arr)%nat by (apply nth_error_Some; congruence). lia.
Qed.

Lemma at_index_None {A : Type} (arr : list A) (k : Z) :
  at_index arr k = None <-> k < 0 \/ Z.of_nat (length arr) <= k.
Proof.
  unfold at_index. destruct (Z.ltb_spec k 0) as [H|H].
  - split; auto.
  - rewrite nth_error_None. lia.
Qed.

Lemma at_index_In {A : Type} (arr : list A) (k : Z) (x : A) :
  at_index arr k = Some x -> In x arr.
Proof.
  intros (n & _ & E)%at_index_Some. eapply nth_error_In; eauto.
Qed.

Lemma In_filteri_from {A : Type} (f : A -> Z -> bool) (arr : list A) :
  forall (k : Z) (x : A),
    In x (filteri_from f k arr) <->
    exists n : nat, nth_error arr n = Some x /\ f x (k + Z.of_nat n) = true.
Proof.
  induction arr as [|y rest IH]; intros k x; simpl.
  - split; [tauto|]. intros ([|n] & E & _); discriminate.
  - assert (Hrest : In x (filteri_from f (k + 1) rest) <->
                    exists n, nth_error rest n = Some x
                              /\ f x (k + Z.of_nat (S n)) = true).
    { rewrite IH. split; intros (n & E & F); exists n; split; auto.
      - now replace (k + Z.of_nat (S n)) with (k + 1 + Z.of_nat n) by lia.
      - now replace (k + 1 + Z.of_nat n) with (k + Z.of_nat (S n)) by lia. }
    destruct (f y k) eqn:Fy; simpl; rewrite Hrest; split.
    + intros [->|(n & E & F)].
      * exists 0%nat. simpl. rewrite Z.add_0_r. auto.
      * exists (S n). auto.
    + intros ([|n] & E & F).
      * left. simpl in E. congruence.
      * right. eauto.
    + intros (n & E & F). exists (S n). auto.
    + intros ([|n] & E & F).
      * simpl in E. injection E as ->. rewrite Z.add_0_r in F. congruence.
      * eauto.
Qed.

Lemma In_filteri {A : Type} (f : A -> Z -> bool) (arr : list A) (x : A) :
  In x (filteri f arr) <->
  exists n : nat, nth_error arr n = Some x /\ f x (Z.of_nat n) = true.
Proof.
  unfold filteri. rewrite In_filteri_from. reflexivity.
Qed.

Lemma filteri_from_incl {A : Type} (f : A -> Z -> bool) (k : Z) (arr : list A) :
  incl (filteri_from f k arr) arr.
Proof.
  intros x (n & E & _)%In_filteri_from. eapply nth_error_In; eauto.
Qed.

(** ** Series built from their values are well indexed *)

Lemma series_of_values_from_well_indexed (vs : list Q) :
  forall k, well_indexed_from k (series_of_values_from k vs).
Proof.
  induction vs as [|v rest IH]; intros k n p E.
  - destruct n; discriminate.
  - destruct n as [|n]; simpl in E.
    + injection E as <-. simpl. lia.
    + apply (IH (k + 1)) in E. lia.
Qed.

Lemma series_of_values_well_indexed (vs : list Q) :
  well_indexed (series_of_values vs).
Proof. apply series_of_values_from_well_indexed. Qed.

Lemma well_indexed_at (pts : list Point) (k : Z) (p : Point) :
  well_indexed pts -> at_index pts k = Some p -> i p = k.
Proof.
  intros W (n & -> & E)%at_index_Some. now apply W in E.
Qed.

Lemma well_indexed_from_tail (k : Z) (p : Point) (rest : list Point) :
  well_indexed_from k (p :: rest) -> well_indexed_from (k + 1) rest.
Proof.
  intros W n q E. specialize (W (S n) q E). lia.
Qed.

(** ** The inflection policy *)

Module InflectionPolicy.
Import ChartComponent.

Lemma isInflection_true (pts : list Point) (p : Point) (k : Z) :
  isInflection pts p k = true <->
  exists a b : Point,
    at_index pts (k - 1) = Some a /\ at_index pts (k + 1) = Some b /\
    ((value p < value a /\ value p < value b)%Q \/
     (value a < value p /\ value b < value p)%Q).
Proof.
  unfold isInflection, opt_field.
  destruct (at_index pts (k - 1)) as [a|]; simpl.
  2:{ split; [discriminate|]. intros (a & b & E & _). discriminate. }
  destruct (at_index pts (k + 1)) as [b|]; simpl.
  2:{ rewrite !andb_false_r. split; [discriminate|].
      intros (a' & b' & _ & E & _). discriminate. }
  rewrite orb_true_iff, !andb_true_iff, !Qlt_bool_iff.
  split.
  - intros H. exists a, b. auto.
  - intros (a' & b' & Ea & Eb & H).
    injection Ea as <-. injection Eb as <-. exact H.
Qed.

Lemma flaggedAt_first (pts : list Point) : flaggedAt pts 0 = false.
Proof.
  unfold flaggedAt. destruct (at_index pts 0) as [p|]; [|reflexivity].
  unfold isInflection. now simpl.
Qed.

Lemma flaggedAt_last (pts : list Point) :
  flaggedAt pts (Z.of_nat (length pts) - 1) = false.
Proof.
  unfold flaggedAt.
  destruct (at_index pts (Z.of_nat (length pts) - 1)) as [p|]; [|reflexivity].
  unfold isInflection.
  assert (E : at_index pts (Z.of_nat (length pts) - 1 + 1) = None)
    by (apply at_index_None; lia).
  rewrite E. simpl. now rewrite !andb_false_r.
Qed.

Lemma In_flagged (pts : list Point) (p : Point) :
  In p (flagged pts) <->
  exists k : Z, at_index pts k = Some p /\ isInflection pts p k = true.
Proof.
  unfold flagged. rewrite In_filteri. split.
  - intros (n & E & F). exists (Z.of_nat n). now rewrite at_index_of_nat.
  - intros (k & (n & -> & E)%at_index_Some & F). eauto.
Qed.

Lemma In_flagged_at (pts : list Point) (k : Z) (p : Point) :
  well_indexed pts -> at_index pts k = Some p ->
  (In p (flagged pts) <-> flaggedAt pts k = true).
Proof.
  intros W E. rewrite In_flagged. unfold flaggedAt. rewrite E. split.
  - intros (k' & E' & F).
    rewrite <- (well_indexed_at _ _ _ W E), (well_indexed_at _ _ _ W E'). exact F.
  - eauto.
Qed.

(** The flagged samples keep the order of the series: their indices grow. *)
Lemma filteri_from_lower_bound (f : Point -> Z -> bool) (pts : list Point) :
  forall k, well_indexed_from k pts ->
            forall p, In p (filteri_from f k pts) -> k <= i p.
Proof.
  intros k W p (n & E & _)%In_filteri_from. apply W in E. lia.
Qed.

Lemma filteri_from_increasing (f : Point -> Z -> bool) (pts : list Point) :
  forall k, well_indexed_from k pts ->
    forall (m n : nat) (a b : Point),
      (m < n)%nat ->
      nth_error (filteri_from f k pts) m = Some a ->
      nth_error (filteri_from f k pts) n = Some b ->
      i a < i b.
Proof.
  induction pts as [|x rest IH]; intros k W m n a b Hmn Ea Eb.
  - destruct m; discriminate.
  - pose proof (well_indexed_from_tail _ _ _ W) as W'.
    simpl in Ea, Eb. destruct (f x k).
    + destruct n as [|n]; [lia|]. simpl in Eb.
      destruct m as [|m]; simpl in Ea.
      * injection Ea as <-.
        assert (k + 1 <= i b).
        { eapply filteri_from_lower_bound; eauto. eapply nth_error_In; eauto. }
        specialize (W 0%nat x eq_refl). lia.
      * eapply (IH (k + 1) W' m n); eauto. lia.
    + eapply (IH (k + 1) W' m n); eauto.
Qed.

(** The second [filter] keeps a flagged sample exactly when the sample just
    before it in the series is not flagged. *)
Lemma In_getExtremePoints_at (pts : list Point) (k : Z) (p : Point) :
  well_indexed pts -> at_index pts k = Some p ->
  (In p (getExtremePoints pts) <->
   flaggedAt pts k = true /\ flaggedAt pts (k - 1) = false).
Proof.
  intros W E. unfold getExtremePoints. cbv zeta. rewrite In_filteri.
  pose proof (well_indexed_at _ _ _ W E) as Hi.
  split.
  - intros (n & En & F).
    assert (Hp : In p (flagged pts)) by (eapply nth_error_In; eauto).
    split; [now apply (In_flagged_at pts k p W E)|].
    destruct (flaggedAt pts (k - 1)) eqn:Fk; [exfalso|reflexivity].
    unfold flaggedAt in Fk.
    destruct (at_index pts (k - 1)) as [q|] eqn:Eq; [|discriminate].
    assert (Hq : In q (flagged pts)) by (apply In_flagged; eauto).
    pose proof (well_indexed_at _ _ _ W Eq) as Hqi.
    apply In_nth_error in Hq. destruct Hq as (m & Em).
    unfold flagged, filteri in En, Em.
    assert (Hmn : (m < n)%nat).
    { destruct (Nat.lt_ge_cases m n) as [H|H]; [exact H|exfalso].
      destruct (Nat.eq_dec m n) as [->|Hne].
      - rewrite En in Em. injection Em as <-. lia.
      - assert (i p < i q)
          by (eapply (filteri_from_increasing _ pts 0 W n m); eauto; lia).
        lia. }
    unfold notTooClose in F.
    replace (Z.of_nat n - 1) with (Z.of_nat (n - 1)) in F by lia.
    rewrite at_index_of_nat in F. unfold flagged, filteri in F.
    destruct (nth_error (filteri_from (isInflection pts) 0 pts) (n - 1))
      as [r|] eqn:Er.
    + simpl in F. apply negb_true_iff, Z.eqb_neq in F.
      assert (i q <= i r).
      { destruct (Nat.eq_dec m (n - 1)) as [->|Hne].
        - rewrite Er in Em. injection Em as <-. lia.
        - assert (i q < i r)
            by (eapply (filteri_from_increasing _ pts 0 W m (n - 1)); eauto; lia).
          lia. }
      assert (i r < i p)
        by (eapply (filteri_from_increasing _ pts 0 W (n - 1) n); eauto; lia).
      lia.
    + apply nth_error_None in Er.
      assert (n < length (filteri_from (isInflection pts) 0 pts))%nat
        by (apply nth_error_Some; congruence).
      lia.
  - intros (Fk & Fk').
    apply (In_flagged_at pts k p W E) in Fk.
    apply In_nth_error in Fk. destruct Fk as (n & En).
    exists n. split; [exact En|].
    unfold notTooClose.
    destruct (at_index (flagged pts) (Z.of_nat n - 1)) as [q|] eqn:Eq;
      [|reflexivity].
    simpl. apply negb_true_iff, Z.eqb_neq. intros Hq.
    apply at_index_In, In_flagged in Eq. destruct Eq as (k' & Eq & Fq).
    pose proof (well_indexed_at _ _ _ W Eq) as Hqi.
    replace k' with (k - 1) in Eq, Fq by lia.
    unfold flaggedAt in Fk'. rewrite Eq in Fk'. congruence.
Qed.

(** C3 (as amended).  Under the inflection policy a sample is flagged
    exactly when it has both neighbours and its value is strictly below both
    of theirs or strictly above both; the first and the last sample of a
    series are never flagged.  For the values 1, 3, 2, 5, 1 the samples at
    indices 1, 2 and 3 are flagged: the 2 at index 2 lies strictly below
    its neighbours 3 and 5. *)
Theorem inflection_flagging :
  (forall (pts : list Point) (p : Point),
      In p (flagged pts) <->
      exists (k : Z) (a b : Point),
        at_index pts k = Some p /\
        at_index pts (k - 1) = Some a /\ at_index pts (k + 1) = Some b /\
        ((value p < value a /\ value p < value b)%Q \/
         (value a < value p /\ value b < value p)%Q)) /\
  (forall pts : list Point,
      flaggedAt pts 0 = false /\
      flaggedAt pts (Z.of_nat (length pts) - 1) = false) /\
  (forall k : Z,
      In k (map i (flagged example_13251)) <-> k = 1 \/ k = 2 \/ k = 3).
Proof.
  split; [|split].
  - intros pts p. rewrite In_flagged. split.
    + intros (k & E & F). apply isInflection_true in F.
      destruct F as (a & b & H). exists k, a, b. tauto.
    + intros (k & a & b & E & H). exists k. split; [exact E|].
      apply isInflection_true. exists a, b. exact H.
  - intros pts. split; [apply flaggedAt_first|apply flaggedAt_last].
  - intros k. change (map i (flagged example_13251)) with [1; 2; 3].
    simpl. intuition lia.
Qed.

(** C3 as stated fails on its own example: the sample at index 2 is flagged
    too, so the flagged indices of 1, 3, 2, 5, 1 are not exactly 1 and 3. *)
Lemma inflection_example_not_1_and_3 :
  ~ (forall k : Z,
        In k (map i (flagged example_13251)) <-> k = 1 \/ k = 3).
Proof.
  intros H. specialize (H 2).
  change (map i (flagged example_13251)) with [1; 2; 3] in H.
  simpl in H. intuition lia.
Qed.

(** What the chart then labels for that series: the collapse of adjacent
    indices leaves the sample at index 1 alone. *)
Lemma inflection_example_output :
  map i (getExtremePoints example_13251) = [1].
Proof. reflexivity. Qed.

(** C8.  After flagging, of the flagged samples of consecutive indices only
    the first of each run is in the output: a sample is in the output
    exactly when it is flagged and the sample just before it is not; so a
    run of flagged indices [a..b] keeps the sample at [a] and loses every
    later one. *)
Theorem adjacent_extremes_keep_first (pts : list Point) :
  well_indexed pts ->
  (forall (k : Z) (p : Point),
      at_index pts k = Some p ->
      (In p (getExtremePoints pts) <->
       flaggedAt pts k = true /\ flaggedAt pts (k - 1) = false)) /\
  (forall a b : Z,
      (forall k, a <= k <= b -> flaggedAt pts k = true) ->
      flaggedAt pts (a - 1) = false ->
      forall (k : Z) (p : Point),
        a <= k <= b -> at_index pts k = Some p ->
        (In p (getExtremePoints pts) <-> k = a)).
Proof.
  intros W. split.
  - intros k p E. now apply In_getExtremePoints_at.
  - intros a b Hrun Ha k p Hk E.
    rewrite (In_getExtremePoints_at pts k p W E). split.
    + intros (_ & F).
      destruct (Z.eq_dec k a) as [->|Hne]; [reflexivity|].
      rewrite Hrun in F by lia. discriminate.
    + intros ->. split; [apply Hrun; lia|exact Ha].
Qed.

Lemma adjacent_extremes_keep_first_witness :
  well_indexed example_13251 /\
  (forall (k : Z) (p : Point),
      1 <= k <= 3 -> at_index example_13251 k = Some p ->
      (In p (getExtremePoints example_13251) <-> k = 1)).
Proof.
  split.
  - apply series_of_values_well_indexed.
  - apply (proj2 (adjacent_extremes_keep_first example_13251
                    (series_of_values_well_indexed _)) 1 3).
    + intros k Hk.
      assert (E : k = 1 \/ k = 2 \/ k = 3) by lia.
      destruct E as [-> | [-> | ->]]; reflexivity.
    + reflexivity.
Defined.

End InflectionPolicy.

(** ** Label placement *)

Module LabelPlacement.

(** C5.  For a sample of a series: at the first or the last position the
    offset is (0, 0) with no anchor and no baseline; elsewhere both
    neighbours exist and, when both are strictly lower, the anchor is
    "middle" and dy = -D; when both are strictly higher, the anchor is
    "middle", the baseline "hanging" and dy = +D; when the value ties a
    neighbour's, the offset is (0, 0) with no anchor and no baseline. *)
Theorem label_placement (D : Q) (pt : Point) (ps : list Point) :
  at_index ps (i pt) = Some pt ->
  (i pt = 0 \/ i pt = Z.of_nat (length ps) - 1 ->
   getPointLabelPositioning_with D pt ps
   = Returns (mkPositioning 0 0 None None)) /\
  (i pt <> 0 -> i pt <> Z.of_nat (length ps) - 1 ->
   exists q0 q1 : Point,
     at_index ps (i pt - 1) = Some q0 /\ at_index ps (i pt + 1) = Some q1 /\
     ((value q0 < value pt)%Q -> (value q1 < value pt)%Q ->
      getPointLabelPositioning_with D pt ps
      = Returns (mkPositioning 0 (- D) (Some anchor_middle) None)) /\
     ((value pt < value q0)%Q -> (value pt < value q1)%Q ->
      getPointLabelPositioning_with D pt ps
      = Returns (mkPositioning 0 D (Some anchor_middle) (Some baseline_hanging))) /\
     ((value pt == value q0)%Q \/ (value pt == value q1)%Q ->
      getPointLabelPositioning_with D pt ps
      = Returns (mkPositioning 0 0 None None))).
Proof.
  intros E. pose proof (at_index_bounds _ _ _ E) as B. split.
  - intros H. unfold getPointLabelPositioning_with.
    assert (Hb : (i pt =? 0) || (i pt =? Z.of_nat (length ps) - 1) = true).
    { apply orb_true_iff. rewrite !Z.eqb_eq. exact H. }
    now rewrite Hb.
  - intros H0 Hl.
    destruct (at_index ps (i pt - 1)) as [q0|] eqn:E0.
    2:{ apply at_index_None in E0. lia. }
    destruct (at_index ps (i pt + 1)) as [q1|] eqn:E1.
    2:{ apply at_index_None in E1. lia. }
    exists q0, q1. split; [reflexivity|]. split; [reflexivity|].
    unfold getPointLabelPositioning_with.
    assert (Hb : (i pt =? 0) || (i pt =? Z.of_nat (length ps) - 1) = false).
    { apply orb_false_iff. rewrite !Z.eqb_neq. auto. }
    rewrite Hb, E0, E1. cbv zeta.
    split; [|split].
    + intros L0 L1.
      apply Qlt_bool_iff in L0, L1. now rewrite L0, L1.
    + intros L0 L1.
      assert (F0 : Qlt_bool (value q0) (value pt) = false)
        by (apply Qlt_bool_false_iff; lra).
      apply Qlt_bool_iff in L0, L1. now rewrite F0, L0, L1.
    + intros T.
      assert (F : Qlt_bool (value q0) (value pt) && Qlt_bool (value q1) (value pt) = false
                  /\ Qlt_bool (value pt) (value q0) && Qlt_bool (value pt) (value q1) = false
                  /\ Qlt_bool (value q0) (value pt) && Qlt_bool (value pt) (value q1) = false
                  /\ Qlt_bool (value pt) (value q0) && Qlt_bool (value q1) (value pt) = false).
      { rewrite !andb_false_iff, !Qlt_bool_false_iff.
        destruct T as [T|T]; rewrite T; repeat split;
          ((left; apply Qle_refl) || (right; apply Qle_refl)). }
      destruct F as (F1 & F2 & F3 & F4). now rewrite F1, F2, F3, F4.
Qed.

Lemma label_placement_witness :
  at_index example_13221 (i example_peak) = Some example_peak /\
  ChartComponent.getPointLabelPositioning example_peak example_13221
  = Returns (mkPositioning 0 (- (10)) (Some anchor_middle) None).
Proof.
  split; [reflexivity|].
  pose proof (label_placement ChartComponent.D example_peak example_13221
                eq_refl) as [_ H].
  destruct H as (q0 & q1 & E0 & E1 & Habove & _); [discriminate|discriminate|].
  injection E0 as <-. injection E1 as <-.
  apply Habove; reflexivity.
Defined.

(** A placement is always returned for a sample of the series. *)
Lemma label_placement_returns (D : Q) (pt : Point) (ps : list Point) :
  at_index ps (i pt) = Some pt ->
  exists pos, getPointLabelPositioning_with D pt ps = Returns pos.
Proof.
  intros E. pose proof (at_index_bounds _ _ _ E) as B.
  unfold getPointLabelPositioning_with.
  destruct ((i pt =? 0) || (i pt =? Z.of_nat (length ps) - 1)) eqn:Hb; [eauto|].
  apply orb_false_iff in Hb. rewrite !Z.eqb_neq in Hb.
  destruct (at_index ps (i pt - 1)) as [q0|] eqn:E0.
  2:{ apply at_index_None in E0. lia. }
  destruct (at_index ps (i pt + 1)) as [q1|] eqn:E1.
  2:{ apply at_index_None in E1. lia. }
  cbv zeta.
  repeat match goal with
         | |- context [if ?c then _ else _] => destruct c
         end; eauto.
Qed.

End LabelPlacement.

(** ** The per-day-bucket policy *)

Module BucketPolicy.
Import CoordinatesPage.

(** The step shared by the loops of [minIndex] and [maxIndex]: after the
    values [pre], reading [v] either moves the record to [v] (when [cmp]
    holds) or leaves it; the induction hypothesis [IH] then runs on
    [pre ++ [v]]. *)
Ltac index_loop_step IH pre nf m v Hnf Hbest cmp :=
  let Hlt := fresh "Hlt" in
  let Hv := fresh "Hv" in
  let n := fresh "n" in
  let m' := fresh "m'" in
  let E := fresh "E" in
  let R := fresh "R" in
  assert (Hlt : (nf < length pre)%nat) by (apply nth_error_Some; congruence);
  match goal with
  | |- context [pre ++ v :: ?rest] =>
      replace (pre ++ v :: rest) with ((pre ++ [v]) ++ rest)
        by (rewrite <- app_assoc; reflexivity)
  end;
  simpl; destruct cmp eqn:Hv;
  [ apply Qlt_bool_iff in Hv;
    destruct (IH (pre ++ [v]) (length pre) v) as (n & m' & E & R);
    [ rewrite nth_error_app2, Nat.sub_diag by lia; reflexivity
    | let u := fresh "u" in
      let Hu := fresh "Hu" in
      intros u [Hu|[<-|[]]]%in_app_or; [|apply Qle_refl];
      specialize (Hbest u Hu); lra
    | let j := fresh "j" in
      let u := fresh "u" in
      let Hj := fresh "Hj" in
      let Hu := fresh "Hu" in
      intros j u Hj Hu; rewrite nth_error_app1 in Hu by lia;
      apply nth_error_In in Hu; specialize (Hbest u Hu); lra
    | exists n, m'; split; [|exact R]; rewrite <- E;
      f_equal; rewrite ?length_app; simpl; lia ]
  | apply Qlt_bool_false_iff in Hv;
    destruct (IH (pre ++ [v]) nf m) as (n & m' & E & R);
    [ rewrite nth_error_app1 by lia; exact Hnf
    | let u := fresh "u" in
      let Hu := fresh "Hu" in
      intros u [Hu|[<-|[]]]%in_app_or; auto
    | let j := fresh "j" in
      let u := fresh "u" in
      let Hj := fresh "Hj" in
      let Hu := fresh "Hu" in
      intros j u Hj Hu; rewrite nth_error_app1 in Hu by lia; eauto
    | exists n, m'; split; [|exact R]; rewrite <- E;
      f_equal; rewrite ?length_app; simpl; lia ] ].

(** The loop of [minIndex], started after the values [pre] of which the
    first smallest is [m] at position [nf], ends on the position of the
    first smallest value of the whole array. *)
Lemma minIndex_loop_spec (rest : list Q) :
  forall (pre : list Q) (nf : nat) (m : Q),
    nth_error pre nf = Some m ->
    (forall v, In v pre -> (m <= v)%Q) ->
    (forall j v, (j < nf)%nat -> nth_error pre j = Some v -> (m < v)%Q) ->
    exists (n : nat) (m' : Q),
      minIndex_loop rest (Z.of_nat (length pre) - 1) (Some m) (Z.of_nat nf)
      = Z.of_nat n /\
      nth_error (pre ++ rest) n = Some m' /\
      (forall v, In v (pre ++ rest) -> (m' <= v)%Q) /\
      (forall j v, (j < n)%nat -> nth_error (pre ++ rest) j = Some v -> (m' < v)%Q).
Proof.
  induction rest as [|v rest IH]; intros pre nf m Hnf Hbest Hfirst.
  - exists nf, m. rewrite app_nil_r. simpl. auto.
  - index_loop_step IH pre nf m v Hnf Hbest (Qlt_bool v m).
Qed.

Lemma minIndex_spec (values : list Q) :
  values <> [] ->
  exists (n : nat) (m : Q),
    minIndex values = Z.of_nat n /\
    nth_error values n = Some m /\
    (forall v, In v values -> (m <= v)%Q) /\
    (forall j v, (j < n)%nat -> nth_error values j = Some v -> (m < v)%Q).
Proof.
  destruct values as [|v rest]; [congruence|]. intros _.
  unfold minIndex. simpl.
  apply (minIndex_loop_spec rest [v] 0 v).
  - reflexivity.
  - intros u [<-|[]]. apply Qle_refl.
  - intros j u Hj. lia.
Qed.

Lemma maxIndex_loop_spec (rest : list Q) :
  forall (pre : list Q) (nf : nat) (m : Q),
    nth_error pre nf = Some m ->
    (forall v, In v pre -> (v <= m)%Q) ->
    (forall j v, (j < nf)%nat -> nth_error pre j = Some v -> (v < m)%Q) ->
    exists (n : nat) (m' : Q),
      maxIndex_loop rest (Z.of_nat (length pre) - 1) (Some m) (Z.of_nat nf)
      = Z.of_nat n /\
      nth_error (pre ++ rest) n = Some m' /\
      (forall v, In v (pre ++ rest) -> (v <= m')%Q) /\
      (forall j v, (j < n)%nat -> nth_error (pre ++ rest) j = Some v -> (v < m')%Q).
Proof.
  induction rest as [|v rest IH]; intros pre nf m Hnf Hbest Hfirst.
  - exists nf, m. rewrite app_nil_r. simpl. auto.
  - index_loop_step IH pre nf m v Hnf Hbest (Qlt_bool m v).
Qed.

Lemma maxIndex_spec (values : list Q) :
  values <> [] ->
  exists (n : nat) (m : Q),
    maxIndex values = Z.of_nat n /\
    nth_error values n = Some m /\
    (forall v, In v values -> (v <= m)%Q) /\
    (forall j v, (j < n)%nat -> nth_error values j = Some v -> (v < m)%Q).
Proof.
  destruct values as [|v rest]; [congruence|]. intros _.
  unfold maxIndex. simpl.
  apply (maxIndex_loop_spec rest [v] 0 v).
  - reflexivity.
  - intros u [<-|[]]. apply Qle_refl.
  - intros j u Hj. lia.
Qed.

Lemma getExtremePoints_cons (b : Z * Z) (dbs : DayBoundaries) (pts : list Point) :
  getExtremePoints (b :: dbs) pts
  = getExtremePoints [b] pts ++ getExtremePoints dbs pts.
Proof. reflexivity. Qed.

Lemma getExtremePoints_app (dbs1 dbs2 : DayBoundaries) (pts : list Point) :
  getExtremePoints (dbs1 ++ dbs2) pts
  = getExtremePoints dbs1 pts ++ getExtremePoints dbs2 pts.
Proof. unfold getExtremePoints. apply flat_map_app. Qed.

Lemma In_pointsInBoundary (b : Z * Z) (pts : list Point) (p : Point) :
  In p (pointsInBoundary b pts) <-> In p pts /\ fst b <= time p < snd b.
Proof.
  destruct b as [s e]. unfold pointsInBoundary. rewrite filter_In.
  rewrite andb_true_iff, Z.leb_le, Z.ltb_lt. reflexivity.
Qed.

(** The entries of a bucket that holds samples: the first sample of
    smallest value, then the first sample of largest value. *)
Lemma bucket_with_samples (b : Z * Z) (pts : list Point) :
  pointsInBoundary b pts <> [] ->
  exists pmin pmax : Point,
    getExtremePoints [b] pts = [Some pmin; Some pmax] /\
    In pmin (pointsInBoundary b pts) /\ In pmax (pointsInBoundary b pts) /\
    (forall q, In q (pointsInBoundary b pts) ->
               (value pmin <= value q <= value pmax)%Q).
Proof.
  intros Hne. set (inB := pointsInBoundary b pts) in *.
  assert (Hv : map value inB <> []).
  { intros E. apply map_eq_nil in E. contradiction. }
  destruct (minIndex_spec _ Hv) as (n & m & En & Em & Hmin & _).
  destruct (maxIndex_spec _ Hv) as (n' & m' & En' & Em' & Hmax & _).
  rewrite nth_error_map in Em, Em'.
  destruct (nth_error inB n) as [pmin|] eqn:Epmin; [|discriminate].
  destruct (nth_error inB n') as [pmax|] eqn:Epmax; [|discriminate].
  simpl in Em, Em'. injection Em as <-. injection Em' as <-.
  exists pmin, pmax. split; [|split; [|split]].
  - unfold getExtremePoints. simpl. fold inB.
    now rewrite En, En', !at_index_of_nat, Epmin, Epmax.
  - eapply nth_error_In; eauto.
  - eapply nth_error_In; eauto.
  - intros q Hq. split; [apply Hmin|apply Hmax]; now apply in_map.
Qed.

(** The entries of a bucket that holds no sample: [minIndex] and [maxIndex]
    answer -1 and the array has nothing there. *)
Lemma bucket_without_samples (b : Z * Z) (pts : list Point) :
  pointsInBoundary b pts = [] ->
  getExtremePoints [b] pts = [None; None].
Proof.
  intros E. unfold getExtremePoints. simpl. now rewrite E.
Qed.

(** The same in terms of the samples of the series and of the window of
    the bucket: when some sample has its time in the window, the two entries
    are samples of the series with their time in the window, and no sample
    with its time in the window has a smaller or a larger value. *)
Lemma bucket_window_extremes (b : Z * Z) (pts : list Point) (p0 : Point) :
  In p0 pts -> within b (time p0) ->
  exists pmin pmax : Point,
    getExtremePoints [b] pts = [Some pmin; Some pmax] /\
    (In pmin pts /\ within b (time pmin)) /\
    (In pmax pts /\ within b (time pmax)) /\
    (forall q, In q pts -> within b (time q) ->
               (value pmin <= value q <= value pmax)%Q).
Proof.
  intros Hin Hw.
  assert (Hne : pointsInBoundary b pts <> []).
  { intros E. assert (H : In p0 (pointsInBoundary b pts))
      by (apply In_pointsInBoundary; split; assumption).
    rewrite E in H. contradiction. }
  destruct (bucket_with_samples b pts Hne)
    as (pmin & pmax & E & Hmin & Hmax & Hall).
  exists pmin, pmax. split; [exact E|].
  split; [now apply In_pointsInBoundary|].
  split; [now apply In_pointsInBoundary|].
  intros q Hq Hwq. apply Hall, In_pointsInBoundary. split; assumption.
Qed.

(** C4.  Buckets are processed in bucket order; a bucket emits, of the
    samples whose time lies in its window (from its start, included, to its
    end, excluded), the one of smallest value, then the one of largest value,
    whatever the values of the samples outside the window; for one bucket
    holding the values 5, 1, 9, 3, in a series that goes on to 0 and 12 the
    next day, the output is the sample of value 1, then the sample of
    value 9. *)
Theorem bucket_min_then_max :
  (forall (b : Z * Z) (dbs : DayBoundaries) (pts : list Point),
      getExtremePoints (b :: dbs) pts
      = getExtremePoints [b] pts ++ getExtremePoints dbs pts) /\
  (forall (b : Z * Z) (pts : list Point) (p0 : Point),
      In p0 pts -> within b (time p0) ->
      exists pmin pmax : Point,
        getExtremePoints [b] pts = [Some pmin; Some pmax] /\
        (In pmin pts /\ within b (time pmin)) /\
        (In pmax pts /\ within b (time pmax)) /\
        (forall q, In q pts -> within b (time q) ->
                   (value pmin <= value q <= value pmax)%Q)) /\
  map value (pointsInBoundary example_bucket example_5193_then_0_12)
  = [5%Q; 1%Q; 9%Q; 3%Q] /\
  getExtremePoints [example_bucket] example_5193_then_0_12
  = [Some (mkPoint 3600000 1 1); Some (mkPoint 7200000 9 2)].
Proof.
  split; [exact getExtremePoints_cons|].
  split; [exact bucket_window_extremes|].
  split; reflexivity.
Qed.

Lemma bucket_min_then_max_witness :
  In (mkPoint 0 5 0) example_5193_then_0_12 /\
  within example_bucket (time (mkPoint 0 5 0)) /\
  exists pmin pmax : Point,
    getExtremePoints [example_bucket] example_5193_then_0_12
    = [Some pmin; Some pmax] /\
    (In pmin example_5193_then_0_12 /\ within example_bucket (time pmin)) /\
    (In pmax example_5193_then_0_12 /\ within example_bucket (time pmax)) /\
    (forall q, In q example_5193_then_0_12 -> within example_bucket (time q) ->
               (value pmin <= value q <= value pmax)%Q).
Proof.
  assert (Hin : In (mkPoint 0 5 0) example_5193_then_0_12)
    by (left; reflexivity).
  assert (Hw : within example_bucket (time (mkPoint 0 5 0)))
    by (unfold within; simpl; lia).
  split; [exact Hin|]. split; [exact Hw|].
  exact (proj1 (proj2 bucket_min_then_max) example_bucket
           example_5193_then_0_12 (mkPoint 0 5 0) Hin Hw).
Defined.

(** C10.  A bucket whose window holds exactly one sample of the series, [p],
    emits that sample twice, as its minimum and as its maximum, whatever the
    samples outside the window. *)
Theorem single_sample_bucket_emitted_twice
  (b : Z * Z) (pts : list Point) (p : Point) :
  In p pts -> within b (time p) ->
  (forall q, In q pts -> within b (time q) -> q = p) ->
  getExtremePoints [b] pts = [Some p; Some p].
Proof.
  intros Hin Hw Honly.
  destruct (bucket_window_extremes b pts p Hin Hw)
    as (pmin & pmax & E & [Hmin Hwmin] & [Hmax Hwmax] & _).
  rewrite E.
  now rewrite (Honly pmin Hmin Hwmin), (Honly pmax Hmax Hwmax).
Qed.

Lemma single_sample_bucket_emitted_twice_witness :
  In (mkPoint 3600000 7 0) example_one_a_day /\
  within example_bucket (time (mkPoint 3600000 7 0)) /\
  (forall q, In q example_one_a_day -> within example_bucket (time q) ->
             q = mkPoint 3600000 7 0) /\
  getExtremePoints [example_bucket] example_one_a_day
  = [Some (mkPoint 3600000 7 0); Some (mkPoint 3600000 7 0)].
Proof.
  assert (Hin : In (mkPoint 3600000 7 0) example_one_a_day)
    by (left; reflexivity).
  assert (Hw : within example_bucket (time (mkPoint 3600000 7 0)))
    by (unfold within; simpl; lia).
  assert (Honly : forall q, In q example_one_a_day ->
                            within example_bucket (time q) ->
                            q = mkPoint 3600000 7 0).
  { intros q [<- | [<- | []]] Hq; [reflexivity|].
    unfold within in Hq. simpl in Hq. lia. }
  split; [exact Hin|]. split; [exact Hw|]. split; [exact Honly|].
  exact (single_sample_bucket_emitted_twice example_bucket example_one_a_day
           (mkPoint 3600000 7 0) Hin Hw Honly).
Defined.

(** C2, evaluated on the code.  Two days, and a series whose only sample
    lies in the second: the first, empty, bucket puts two [undefined]
    entries in the output, and computing the label placement of such an
    entry throws. *)
Theorem empty_bucket_emits_undefined :
  pointsInBoundary example_bucket example_second_day = [] /\
  getExtremePoints [example_bucket; example_next_bucket] example_second_day
  = [None; None;
     Some (mkPoint 90000000 4 0); Some (mkPoint 90000000 4 0)] /\
  map (fun entry => labelPositioning entry example_second_day)
    (getExtremePoints [example_bucket] example_second_day)
  = [Throws TypeError; Throws TypeError].
Proof. repeat split. Qed.

End BucketPolicy.

(** ** The zone model obeys the calendar laws *)

Section ZoneModel.

Variable dst : Z -> bool.

Lemma offsetAtMidnight_cases (n : Z) :
  offsetAtMidnight dst n = 14400000 \/ offsetAtMidnight dst n = 18000000.
Proof.
  unfold offsetAtMidnight, MS_PER_HOUR. destruct (dst n); auto.
Qed.

Lemma dayStart_eq (n : Z) :
  dayStart dst n = n * 86400000 + offsetAtMidnight dst n.
Proof. reflexivity. Qed.

Lemma dayStart_lt_next (n : Z) : dayStart dst n < dayStart dst (n + 1).
Proof.
  rewrite !dayStart_eq.
  pose proof (offsetAtMidnight_cases n). pose proof (offsetAtMidnight_cases (n + 1)).
  lia.
Qed.

Lemma dayOf_spec (t : Z) :
  dayStart dst (dayOf dst t) <= t < dayStart dst (dayOf dst t + 1).
Proof.
  unfold dayOf. cbv zeta. change (4 * MS_PER_HOUR) with 14400000.
  change MS_PER_DAY with 86400000.
  set (n0 := (t - 14400000) / 86400000).
  assert (Hn0 : n0 * 86400000 <= t - 14400000 < (n0 + 1) * 86400000).
  { unfold n0. pose proof (Z.div_mod (t - 14400000) 86400000 ltac:(lia)).
    pose proof (Z.mod_pos_bound (t - 14400000) 86400000 ltac:(lia)). lia. }
  destruct (Z.leb_spec (dayStart dst n0) t) as [H|H].
  - split; [exact H|]. rewrite dayStart_eq.
    pose proof (offsetAtMidnight_cases (n0 + 1)). lia.
  - replace (n0 - 1 + 1) with n0 by lia. split; [|exact H].
    rewrite dayStart_eq. pose proof (offsetAtMidnight_cases (n0 - 1)). lia.
Qed.

Lemma dayStart_mono (m n : Z) : m < n -> dayStart dst m < dayStart dst n.
Proof.
  intros H. rewrite !dayStart_eq.
  pose proof (offsetAtMidnight_cases m). pose proof (offsetAtMidnight_cases n).
  lia.
Qed.

Lemma dayOf_unique (t n : Z) :
  dayStart dst n <= t < dayStart dst (n + 1) -> dayOf dst t = n.
Proof.
  intros H. pose proof (dayOf_spec t) as S.
  destruct (Z.lt_trichotomy (dayOf dst t) n) as [L|[E|G]]; [|exact E|].
  - assert (dayStart dst (dayOf dst t + 1) <= dayStart dst n).
    { destruct (Z.eq_dec (dayOf dst t + 1) n) as [->|Hne]; [lia|].
      apply Z.lt_le_incl, dayStart_mono. lia. }
    lia.
  - assert (dayStart dst (n + 1) <= dayStart dst (dayOf dst t)).
    { destruct (Z.eq_dec (n + 1) (dayOf dst t)) as [->|Hne]; [lia|].
      apply Z.lt_le_incl, dayStart_mono. lia. }
    lia.
Qed.

Lemma dayOf_dayStart (n : Z) : dayOf dst (dayStart dst n) = n.
Proof.
  apply dayOf_unique. pose proof (dayStart_lt_next n). lia.
Qed.

Lemma toWall_dayStart (n : Z) : toWall dst n (dayStart dst n) = 0.
Proof.
  unfold toWall. cbv zeta. rewrite Z.sub_diag.
  destruct (dst n), (dst (n + 1)); reflexivity.
Qed.

Lemma fromWall_0 (n : Z) : fromWall dst n 0 = dayStart dst n.
Proof.
  unfold fromWall. destruct (dst n), (dst (n + 1)); simpl; lia.
Qed.

(** Adding a day to a local midnight gives the next local midnight. *)
Lemma zone_addP1D_dayStart (n : Z) :
  zone_addP1D dst (dayStart dst n) = dayStart dst (n + 1).
Proof.
  unfold zone_addP1D. cbv zeta.
  now rewrite dayOf_dayStart, toWall_dayStart, fromWall_0.
Qed.

Lemma zone_laws : ZoneLaws (zone dst).
Proof.
  constructor; simpl; unfold zone_startOfDay.
  - intros t. rewrite zone_addP1D_dayStart. apply dayOf_spec.
  - intros t. now rewrite zone_addP1D_dayStart, dayOf_dayStart.
  - intros t u. rewrite zone_addP1D_dayStart. intros H.
    now rewrite (dayOf_unique u (dayOf dst t) H).
Qed.

End ZoneModel.

Lemma NewYork_laws : ZoneLaws NewYork.
Proof. apply zone_laws. Qed.

(** The day of 10 March 2024, when the clocks go forward, lasts 23 hours,
    and the day of 3 November 2024, when they go back, 25 hours. *)
Lemma NewYork_short_and_long_day :
  civil_from_days 19792 = (2024, 3, 10) /\
  addP1D NewYork (dayStart us_dst 19792) - dayStart us_dst 19792
  = 23 * MS_PER_HOUR /\
  civil_from_days 20030 = (2024, 11, 3) /\
  addP1D NewYork (dayStart us_dst 20030) - dayStart us_dst 20030
  = 25 * MS_PER_HOUR.
Proof. repeat split. Qed.

(** ** The day segmenter *)

Section DaySegmenter.

Variable C : ZoneCalendar.
Hypothesis laws : ZoneLaws C.

Lemma startOfDay_is_day_start (t : Z) : is_day_start C (startOfDay C t).
Proof.
  unfold is_day_start. apply (same_day C laws).
  pose proof (in_own_day C laws t). lia.
Qed.

Lemma day_start_advances (c : Z) : is_day_start C c -> c < addP1D C c.
Proof.
  intros H. pose proof (in_own_day C laws c) as I. rewrite H in I. lia.
Qed.

Lemma day_start_next (c : Z) : is_day_start C c -> is_day_start C (addP1D C c).
Proof.
  intros H. unfold is_day_start.
  pose proof (next_is_day_start C laws c) as N. now rewrite H in N.
Qed.

Lemma day_start_one_calendar_day (c : Z) :
  is_day_start C c -> one_calendar_day C (c, addP1D C c).
Proof.
  intros H. unfold is_day_start in H.
  split; [reflexivity|]. unfold within. simpl. intros u. split.
  - intros Hu. transitivity (startOfDay C c); [|exact H].
    apply (same_day C laws). now rewrite H.
  - intros <-. apply (in_own_day C laws).
Qed.

(** *** What the loop computes *)

Lemma boundaries_loop_done (fuel : nat) (endMs cur : Z) (acc : DayBoundaries) :
  endMs <= cur -> boundaries_loop C fuel endMs cur acc = Some acc.
Proof.
  intros H. assert (E : (endMs - cur >? 0) = false) by lia.
  destruct fuel; simpl; now rewrite E.
Qed.

Lemma boundaries_loop_step (fuel : nat) (endMs cur : Z) (acc : DayBoundaries) :
  cur < endMs ->
  boundaries_loop C (S fuel) endMs cur acc
  = boundaries_loop C fuel endMs (addP1D C cur) (acc ++ [(cur, addP1D C cur)]).
Proof.
  intros H. assert (E : (endMs - cur >? 0) = true) by lia.
  simpl. now rewrite E.
Qed.

(** The loop started on a day start ends within [endMs - cur] iterations;
    it has then pushed the successive days from [cur] up to the first day
    start at or after [endMs]. *)
Lemma boundaries_loop_total (n : nat) :
  forall (endMs cur : Z) (acc : DayBoundaries),
    is_day_start C cur -> endMs - cur <= Z.of_nat n ->
    exists (l : DayBoundaries) (last : Z),
      day_chain C cur l last /\ endMs <= last /\
      Forall (fun iv => fst iv < endMs) l /\
      forall fuel, (n <= fuel)%nat ->
                   boundaries_loop C fuel endMs cur acc = Some (acc ++ l).
Proof.
  induction n as [|n IH]; intros endMs cur acc Hc Hn.
  - exists [], cur. repeat split; [constructor|lia|constructor|].
    intros fuel _. rewrite app_nil_r. apply boundaries_loop_done. lia.
  - destruct (Z.le_gt_cases endMs cur) as [Hle|Hgt].
    + exists [], cur. repeat split; [constructor|lia|constructor|].
      intros fuel _. rewrite app_nil_r. now apply boundaries_loop_done.
    + pose proof (day_start_advances cur Hc) as Hadv.
      destruct (IH endMs (addP1D C cur) (acc ++ [(cur, addP1D C cur)]))
        as (l & last & Hchain & Hlast & Hall & Hrun).
      * now apply day_start_next.
      * lia.
      * exists ((cur, addP1D C cur) :: l), last.
        repeat split; [now constructor|exact Hlast|now constructor|].
        intros [|fuel] Hfuel; [lia|].
        rewrite boundaries_loop_step by lia.
        rewrite Hrun by lia. now rewrite <- app_assoc.
Qed.

(** *** Chains of days *)

Lemma day_chain_days (cur : Z) (l : DayBoundaries) (last : Z) :
  day_chain C cur l last -> is_day_start C cur ->
  is_day_start C last /\ cur <= last /\
  Forall (fun iv => is_day_start C (fst iv) /\ snd iv = addP1D C (fst iv)
                    /\ cur <= fst iv /\ snd iv <= last) l.
Proof.
  induction 1 as [cur|cur l last Hch IH]; intros Hc.
  - repeat split; [exact Hc|lia|constructor].
  - pose proof (day_start_advances cur Hc) as Hadv.
    destruct (IH (day_start_next cur Hc)) as (Hl & Hle & Hall).
    repeat split; [exact Hl|lia|].
    constructor.
    + simpl. repeat split; [exact Hc|lia|lia].
    + eapply Forall_impl; [|exact Hall]. simpl. intros iv (? & ? & ? & ?).
      repeat split; auto; lia.
Qed.

Lemma day_chain_contiguous (cur : Z) (l : DayBoundaries) (last : Z) :
  day_chain C cur l last -> contiguous l.
Proof.
  induction 1 as [cur|cur l last Hch IH]; intros n a b Ea Eb.
  - destruct n; discriminate.
  - destruct n as [|n]; simpl in Ea, Eb.
    + injection Ea as <-. inversion Hch; subst; simpl in Eb;
        [discriminate|]. injection Eb as <-. reflexivity.
    + eapply IH; eauto.
Qed.

Lemma day_chain_covers (cur : Z) (l : DayBoundaries) (last : Z) :
  day_chain C cur l last -> is_day_start C cur -> covers l cur last.
Proof.
  induction 1 as [cur|cur l last Hch IH]; intros Hc u.
  - split; [intros (iv & [] & _)|lia].
  - pose proof (day_start_advances cur Hc) as Hadv.
    pose proof (day_start_next cur Hc) as Hn.
    destruct (day_chain_days _ _ _ Hch Hn) as (_ & Hle & _).
    specialize (IH Hn u). split.
    + intros (iv & [<-|Hin] & Hu).
      * unfold within in Hu. simpl in Hu. lia.
      * assert (addP1D C cur <= u < last) by (apply IH; eauto). lia.
    + intros Hu. destruct (Z.lt_ge_cases u (addP1D C cur)) as [Hlt|Hge].
      * exists (cur, addP1D C cur). split; [now left|].
        unfold within. simpl. lia.
      * destruct (proj2 IH) as (iv & Hin & Hiv); [lia|].
        exists iv. split; [now right|exact Hiv].
Qed.

Lemma day_chain_non_overlapping (cur : Z) (l : DayBoundaries) (last : Z) :
  day_chain C cur l last -> is_day_start C cur -> non_overlapping l.
Proof.
  intros Hch Hc m n a b Hmn Ea Eb u (Ha & Hb).
  pose proof (day_chain_days _ _ _ Hch Hc) as (_ & _ & Hall).
  rewrite Forall_forall in Hall.
  destruct (Hall a (nth_error_In _ _ Ea)) as (Sa & Na & _).
  destruct (Hall b (nth_error_In _ _ Eb)) as (Sb & Nb & _).
  assert (Eab : fst a = fst b).
  { destruct (day_start_one_calendar_day _ Sa) as (_ & Ua).
    destruct (day_start_one_calendar_day _ Sb) as (_ & Ub).
    unfold within in *. simpl in Ua, Ub.
    rewrite <- (proj1 (Ua u)), <- (proj1 (Ub u)); [reflexivity|lia|lia]. }
  clear Ha Hb u Sa Sb Na Nb Hall.
  revert m n a b Hmn Ea Eb Eab Hc.
  induction Hch as [cur|cur l last Hch IH]; intros m n a b Hmn Ea Eb Eab Hc.
  - destruct m; discriminate.
  - pose proof (day_start_advances cur Hc) as Hadv.
    pose proof (day_start_next cur Hc) as Hn.
    pose proof (day_chain_days _ _ _ Hch Hn) as (_ & _ & Hall).
    rewrite Forall_forall in Hall.
    destruct m as [|m], n as [|n]; simpl in Ea, Eb.
    + congruence.
    + injection Ea as <-. apply nth_error_In, Hall in Eb. simpl in Eab. lia.
    + injection Eb as <-. apply nth_error_In, Hall in Ea. simpl in Eab. lia.
    + eapply (IH m n a b); eauto.
Qed.

Lemma day_chain_last (cur : Z) (l : DayBoundaries) (last : Z) :
  day_chain C cur l last -> l <> [] ->
  exists a, In (a, last) l /\ last = addP1D C a.
Proof.
  induction 1 as [cur|cur l last Hch IH]; intros Hne; [congruence|].
  destruct l as [|iv l].
  - inversion Hch; subst. exists cur. split; [now left|reflexivity].
  - destruct IH as (a & Hin & Ha); [discriminate|].
    exists a. split; [now right|exact Ha].
Qed.

Lemma day_start_from_spec (t : Z) :
  is_day_start C (day_start_from C t) /\ t <= day_start_from C t /\
  (forall c, is_day_start C c -> c < t -> addP1D C c <= day_start_from C t) /\
  (forall c, is_day_start C c -> t <= c -> day_start_from C t <= c).
Proof.
  unfold day_start_from.
  pose proof (in_own_day C laws t) as I.
  assert (Hsame : forall c, is_day_start C c -> c <= t < addP1D C c ->
                            startOfDay C t = c).
  { intros c Hc Hin. transitivity (startOfDay C c); [|exact Hc].
    apply (same_day C laws). now rewrite Hc. }
  destruct (Z.eqb_spec (startOfDay C t) t) as [E|NE].
  - repeat split; [exact E|lia| |auto].
    intros c Hc Hlt.
    destruct (Z.le_gt_cases (addP1D C c) t) as [H|H]; [exact H|exfalso].
    assert (startOfDay C t = c) by (apply Hsame; [exact Hc|lia]). lia.
  - repeat split.
    + apply day_start_next, startOfDay_is_day_start.
    + lia.
    + intros c Hc Hlt.
      destruct (Z.le_gt_cases (addP1D C c) t) as [H|H]; [lia|].
      assert (startOfDay C t = c) by (apply Hsame; [exact Hc|lia]).
      subst c. lia.
    + intros c Hc Hle.
      destruct (Z.le_gt_cases (addP1D C (startOfDay C t)) c) as [H|H];
        [exact H|exfalso].
      assert (startOfDay C c = startOfDay C t)
        by (apply (same_day C laws); lia).
      unfold is_day_start in Hc. lia.
Qed.

(** What [getDayBoundaries] returns on two epoch times: the successive days
    from the day of [startTime] up to the first day start at or after
    [endTime]. *)
Lemma getDayBoundaries_days (startTime endTime : Z) :
  exists (l : DayBoundaries) (last : Z),
    (forall fuel,
        (Z.to_nat (endTime - startOfDay C startTime) <= fuel)%nat ->
        getDayBoundaries C fuel (Some startTime) (Some endTime)
        = Some (Returns l)) /\
    day_chain C (startOfDay C startTime) l last /\
    endTime <= last /\
    Forall (fun iv => fst iv < endTime) l.
Proof.
  destruct (boundaries_loop_total
              (Z.to_nat (endTime - startOfDay C startTime))
              endTime (startOfDay C startTime) [])
    as (l & last & Hch & Hlast & Hall & Hrun).
  - apply startOfDay_is_day_start.
  - lia.
  - exists l, last. repeat split; auto.
    intros fuel Hfuel. unfold getDayBoundaries. simpl.
    now rewrite (Hrun fuel Hfuel).
Qed.

End DaySegmenter.

(** C9.  The day segmenter ends on every pair of inputs: with enough
    iterations allowed it returns or throws, and on two epoch times
    [endTime - start-of-day(startTime)] iterations are enough; every
    interval it has pushed runs from a boundary to the boundary one calendar
    day later, strictly after it; and when [endTime <= start-of-day(startTime)]
    the body never runs and the result is empty. *)
Theorem segmenter_terminates (C : ZoneCalendar) (laws : ZoneLaws C) :
  (forall startTime endTime : option Z,
      exists (n : nat) (r : completion DayBoundaries),
        forall fuel, (n <= fuel)%nat ->
                     getDayBoundaries C fuel startTime endTime = Some r) /\
  (forall startTime endTime : Z,
      exists l : DayBoundaries,
        (forall fuel,
            (Z.to_nat (endTime - startOfDay C startTime) <= fuel)%nat ->
            getDayBoundaries C fuel (Some startTime) (Some endTime)
            = Some (Returns l)) /\
        Forall (fun iv => fst iv < snd iv /\ snd iv = addP1D C (fst iv)) l) /\
  (forall startTime endTime : Z,
      endTime <= startOfDay C startTime ->
      forall fuel,
        getDayBoundaries C fuel (Some startTime) (Some endTime)
        = Some (Returns [])).
Proof.
  split; [|split].
  - intros [s|] [e|].
    + destruct (getDayBoundaries_days C laws s e) as (l & _ & Hrun & _).
      exists (Z.to_nat (e - startOfDay C s)), (Returns l). exact Hrun.
    + exists 0%nat, (Throws RangeError). reflexivity.
    + exists 0%nat, (Throws RangeError). reflexivity.
    + exists 0%nat, (Throws RangeError). reflexivity.
  - intros startTime endTime.
    destruct (getDayBoundaries_days C laws startTime endTime)
      as (l & last & Hrun & Hch & _ & _).
    exists l. split; [exact Hrun|].
    destruct (day_chain_days C laws _ _ _ Hch
                (startOfDay_is_day_start C laws startTime)) as (_ & _ & Hall).
    eapply Forall_impl; [|exact Hall]. simpl.
    intros iv (Hs & Hn & _). split; [|exact Hn].
    rewrite Hn. now apply day_start_advances.
  - intros startTime endTime Hle fuel. unfold getDayBoundaries. simpl.
    now rewrite boundaries_loop_done.
Qed.

Lemma segmenter_terminates_witness :
  ZoneLaws NewYork /\
  example_noon <= startOfDay NewYork example_midnight /\
  (forall fuel,
      getDayBoundaries NewYork fuel (Some example_midnight) (Some example_noon)
      = Some (Returns [])).
Proof.
  split; [exact NewYork_laws|].
  assert (H : example_noon <= startOfDay NewYork example_midnight)
    by (vm_compute; discriminate).
  split; [exact H|].
  exact (proj2 (proj2 (segmenter_terminates NewYork NewYork_laws))
           example_midnight example_noon H).
Defined.

(** C1 (as amended).  For [startTime < endTime] the day segmenter returns
    intervals that are contiguous, do not overlap, are each one calendar day
    of the zone, and whose union is exactly
    [[start-of-day(startTime), d)], where [d] is the first day start at or
    after [endTime]: [start-of-day(endTime) + 1 day] unless [endTime] is
    itself a day start, and [endTime] then. *)
Theorem day_segmentation (C : ZoneCalendar) (laws : ZoneLaws C)
  (startTime endTime : Z) :
  startTime < endTime ->
  exists l : DayBoundaries,
    (forall fuel,
        (Z.to_nat (endTime - startOfDay C startTime) <= fuel)%nat ->
        getDayBoundaries C fuel (Some startTime) (Some endTime)
        = Some (Returns l)) /\
    l <> [] /\
    contiguous l /\ non_overlapping l /\
    Forall (one_calendar_day C) l /\
    covers l (startOfDay C startTime) (day_start_from C endTime).
Proof.
  intros Hlt.
  destruct (getDayBoundaries_days C laws startTime endTime)
    as (l & last & Hrun & Hch & Hlast & Hbefore).
  pose proof (startOfDay_is_day_start C laws startTime) as Hs.
  destruct (day_chain_days C laws _ _ _ Hch Hs) as (Hl & Hle & Hall).
  assert (Hne : l <> []).
  { intros ->. inversion Hch; subst.
    pose proof (in_own_day C laws startTime). lia. }
  assert (Elast : last = day_start_from C endTime).
  { destruct (day_chain_last C _ _ _ Hch Hne) as (a & Hin & Ha).
    rewrite Forall_forall in Hall, Hbefore.
    destruct (Hall _ Hin) as (Sa & _). apply Hbefore in Hin. simpl in *.
    destruct (day_start_from_spec C laws endTime) as (_ & _ & Hnext & Hmin).
    specialize (Hnext a Sa Hin). specialize (Hmin last Hl Hlast). lia. }
  exists l. split; [exact Hrun|]. split; [exact Hne|].
  split; [eapply day_chain_contiguous; eauto|].
  split; [eapply day_chain_non_overlapping; eauto|].
  split.
  - eapply Forall_impl; [|exact Hall]. simpl.
    intros [a b] (Sa & Na & _). simpl in *. subst b.
    now apply day_start_one_calendar_day.
  - rewrite <- Elast. eapply day_chain_covers; eauto.
Qed.

Lemma day_segmentation_witness :
  ZoneLaws NewYork /\
  example_before_change < example_after_change /\
  exists l : DayBoundaries,
    (forall fuel,
        (Z.to_nat (example_after_change
                   - startOfDay NewYork example_before_change) <= fuel)%nat ->
        getDayBoundaries NewYork fuel
          (Some example_before_change) (Some example_after_change)
        = Some (Returns l)) /\
    l <> [] /\
    contiguous l /\ non_overlapping l /\
    Forall (one_calendar_day NewYork) l /\
    covers l (startOfDay NewYork example_before_change)
      (day_start_from NewYork example_after_change).
Proof.
  split; [exact NewYork_laws|].
  split; [reflexivity|].
  apply (day_segmentation NewYork NewYork_laws). reflexivity.
Defined.

(** The three days of that run: the second one, 10 March 2024, is 23 hours
    long. *)
Lemma day_segmentation_across_clock_change :
  getDayBoundaries NewYork 3
    (Some example_before_change) (Some example_after_change)
  = Some (Returns [(1709960400000, 1710046800000);
                   (1710046800000, 1710129600000);
                   (1710129600000, 1710216000000)]).
Proof. reflexivity. Qed.

(** C1 as stated fails when [endTime] is itself a day start: from noon UTC
    of 10 January 2024 to the New York midnight that begins 12 January, the
    segmenter returns the days of the 10th and the 11th; [endTime] lies in
    [[start-of-day(startTime), start-of-day(endTime) + 1 day)] and in none
    of them. *)
Lemma day_segmentation_end_at_midnight :
  example_noon < example_midnight /\
  getDayBoundaries NewYork 2 (Some example_noon) (Some example_midnight)
  = Some (Returns [(1704862800000, 1704949200000);
                   (1704949200000, 1705035600000)]) /\
  ~ covers [(1704862800000, 1704949200000); (1704949200000, 1705035600000)]
      (startOfDay NewYork example_noon)
      (addP1D NewYork (startOfDay NewYork example_midnight)).
Proof.
  split; [reflexivity|]. split; [reflexivity|].
  intros H. specialize (H example_midnight).
  destruct (proj2 H) as (iv & Hin & Hw).
  - split; [vm_compute; discriminate|reflexivity].
  - unfold within in Hw. simpl in Hin.
    destruct Hin as [<-|[<-|[]]]; vm_compute in Hw; destruct Hw as [_ H2];
      discriminate H2.
Qed.

(** ** The chart without samples *)

Module EmptyInput.
Import ChartComponent.

Lemma no_samples_flat (tss : list TimeSeries) :
  (forall ts, In ts tss -> points ts = []) -> flat_map points tss = [].
Proof.
  induction tss as [|ts tss IH]; intros H; [reflexivity|].
  simpl. rewrite (H ts (or_introl eq_refl)). simpl.
  apply IH. intros ts' Hin. apply H. now right.
Qed.

(** C7 (as amended).  When no series has a sample, the domain computation
    does not throw and answers the pair of [undefined]; the day segmenter,
    called on that pair, throws the RangeError of the instant conversion
    before its loop. *)
Theorem no_samples_domain_undefined (C : ZoneCalendar) (fuel : nat)
  (tss : list TimeSeries) :
  (forall ts, In ts tss -> points ts = []) ->
  xDomain tss = (None, None) /\
  yDomain tss = (None, None) /\
  Chart_dayBoundaries C fuel tss = Some (Throws RangeError).
Proof.
  intros H. unfold Chart_dayBoundaries, xDomain, yDomain.
  rewrite (no_samples_flat tss H). repeat split.
Qed.

Lemma no_samples_domain_undefined_witness :
  (forall ts, In ts example_no_samples -> points ts = []) /\
  xDomain example_no_samples = (None, None) /\
  yDomain example_no_samples = (None, None) /\
  Chart_dayBoundaries NewYork 1 example_no_samples = Some (Throws RangeError).
Proof.
  assert (H : forall ts, In ts example_no_samples -> points ts = []).
  { intros ts [<-|[<-|[]]]; reflexivity. }
  split; [exact H|].
  exact (no_samples_domain_undefined NewYork 1 example_no_samples H).
Defined.

(** C7 as stated fails on the empty list of series: the domain is the pair
    of [undefined], not a single-point domain, and the segmenter throws. *)
Lemma no_series_counterexample :
  xDomain [] = (None, None) /\
  (forall d : Z, xDomain [] <> (Some d, Some d)) /\
  Chart_dayBoundaries NewYork 1 [] = Some (Throws RangeError).
Proof.
  split; [reflexivity|]. split; [discriminate|reflexivity].
Qed.

End EmptyInput.

(** ** The domain and the scales *)

Section Extent.

Variable A : Type.
Variable lt : A -> A -> bool.
Variable le : A -> A -> Prop.
Hypothesis le_refl : forall a, le a a.
Hypothesis le_trans : forall a b c, le a b -> le b c -> le a c.
Hypothesis lt_le : forall a b, lt a b = true -> le a b.
Hypothesis not_lt_le : forall a b, lt a b = false -> le b a.

Lemma extent_loop_bounds (values : list A) :
  forall mn0 mx0 : A,
    exists mn mx : A,
      extent_loop lt (Some (mn0, mx0)) values = Some (mn, mx) /\
      le mn mn0 /\ le mx0 mx /\
      forall v, In v values -> le mn v /\ le v mx.
Proof.
  induction values as [|v rest IH]; intros mn0 mx0; simpl.
  - exists mn0, mx0. repeat split; auto; contradiction.
  - destruct (IH (if lt v mn0 then v else mn0) (if lt mx0 v then v else mx0))
      as (mn & mx & E & Hmn & Hmx & Hall).
    exists mn, mx. split; [exact E|].
    assert (Hv : le mn v /\ le v mx).
    { split.
      - destruct (lt v mn0) eqn:L; [exact Hmn|].
        eapply le_trans; [exact Hmn|]. now apply not_lt_le.
      - destruct (lt mx0 v) eqn:L; [exact Hmx|].
        eapply le_trans; [|exact Hmx]. now apply not_lt_le. }
    split; [|split].
    + destruct (lt v mn0) eqn:L; [|exact Hmn].
      eapply le_trans; [exact Hmn|]. now apply lt_le.
    + destruct (lt mx0 v) eqn:L; [|exact Hmx].
      eapply le_trans; [|exact Hmx]. now apply lt_le.
    + intros u [<-|Hu]; [exact Hv|]. now apply Hall.
Qed.

(** Every value lies in the extent of the values. *)
Lemma extent_bounds (values : list A) (v : A) :
  In v values ->
  exists mn mx : A,
    extent lt values = (Some mn, Some mx) /\ le mn v /\ le v mx.
Proof.
  destruct values as [|v0 rest]; [intros []|]. intros Hin.
  unfold extent. simpl.
  destruct (extent_loop_bounds rest v0 v0) as (mn & mx & E & Hmn & Hmx & Hall).
  exists mn, mx. rewrite E. split; [reflexivity|].
  destruct Hin as [<-|Hin]; [tauto|]. now apply Hall.
Qed.

End Extent.

Lemma extent_time_bounds (ts : list Z) (t : Z) :
  In t ts ->
  exists d0 d1 : Z, extent Z.ltb ts = (Some d0, Some d1) /\ d0 <= t <= d1.
Proof.
  intros H.
  assert (L1 : forall a b, (a <? b) = true -> a <= b)
    by (intros a b L; apply Z.ltb_lt in L; lia).
  assert (L2 : forall a b, (a <? b) = false -> b <= a)
    by (intros a b L; apply Z.ltb_ge in L; lia).
  destruct (extent_bounds Z Z.ltb Z.le Z.le_refl Z.le_trans L1 L2 ts t H)
    as (d0 & d1 & E & H0 & H1).
  exists d0, d1. auto.
Qed.

Lemma extent_value_bounds (vs : list Q) (v : Q) :
  In v vs ->
  exists d0 d1 : Q,
    extent Qlt_bool vs = (Some d0, Some d1) /\ (d0 <= v <= d1)%Q.
Proof.
  intros H.
  assert (L1 : forall a b, Qlt_bool a b = true -> (a <= b)%Q)
    by (intros a b L; apply Qlt_bool_iff in L; lra).
  assert (L2 : forall a b, Qlt_bool a b = false -> (b <= a)%Q)
    by (intros a b L; now apply Qlt_bool_false_iff in L).
  destruct (extent_bounds Q Qlt_bool Qle Qle_refl Qle_trans L1 L2 vs v H)
    as (d0 & d1 & E & H0 & H1).
  exists d0, d1. auto.
Qed.

(** Interpolating at a fraction of [[0, 1]] stays between the ends. *)
Lemma interpolate_between (r0 r1 t : Q) :
  (0 <= t <= 1)%Q -> between r0 r1 (r0 * (1 - t) + r1 * t)%Q.
Proof.
  intros [H0 H1]. unfold between.
  destruct (Qlt_le_dec r1 r0) as [L|L]; [right|left]; split; nra.
Qed.

Lemma linear_scale_between (d0 d1 r0 r1 x : Q) :
  (d0 <= x <= d1)%Q -> between r0 r1 (linear_scale (d0, d1) (r0, r1) x).
Proof.
  intros [H0 H1]. unfold linear_scale.
  apply interpolate_between.
  destruct (Qeq_bool d0 d1) eqn:E; [lra|].
  apply Qeq_bool_neq in E.
  assert (Hpos : (0 < d1 - d0)%Q).
  { destruct (Qlt_le_dec d0 d1) as [L|L]; [lra|].
    exfalso. apply E. lra. }
  split.
  - apply Qle_shift_div_l; [exact Hpos|lra].
  - apply Qle_shift_div_r; [exact Hpos|lra].
Qed.

Lemma exact_scaleTime_in_range : time_scale_in_range exact_scaleTime.
Proof.
  intros d0 d1 r0 r1 t [H0 H1]. unfold exact_scaleTime.
  apply linear_scale_between. rewrite <- !Zle_Qle. auto.
Qed.

Lemma exact_scaleLinear_in_range : value_scale_in_range exact_scaleLinear.
Proof.
  intros d0 d1 r0 r1 v H. unfold exact_scaleLinear.
  now apply linear_scale_between.
Qed.

(** ** Labels at the edges of the viewport *)

Module LabelVisibility.
Import ChartComponent.




Lemma getExtremePoints_incl (pts : list Point) :
  incl (getExtremePoints pts) pts.
Proof.
  unfold getExtremePoints, flagged, filteri. cbv zeta.
  intros p Hp. apply filteri_from_incl in Hp. now apply filteri_from_incl in Hp.
Qed.

Lemma well_indexed_In (pts : list Point) (p : Point) :
  well_indexed pts -> In p pts -> at_index pts (i p) = Some p.
Proof.
  intros W Hin. apply In_nth_error in Hin. destruct Hin as (n & E).
  rewrite (W n p E). simpl. now rewrite at_index_of_nat.
Qed.

Lemma chartWidth_ge (w : Q) : (1000 <= chartWidth w)%Q.
Proof.
  unfold chartWidth. destruct (Qlt_bool w 1000) eqn:E.
  - lra.
  - now apply Qlt_bool_false_iff in E.
Qed.


(** Calling a colour scale that is [undefined] on a value or more
    throws. *)
Lemma allReturned_undefined (ys : list Q) (asMember : bool) :
  ys <> [] ->
  allReturned (map (fun y => callColorScale None asMember y) ys)
  = Throws TypeError.
Proof.
  destruct ys as [|y ys]; [congruence|]. reflexivity.
Qed.

(** A key none of the series has as label is not assigned by the [reduce]
    of [Chart]. *)
Lemma extremePointsByTs_from (tss : list TimeSeries)
  (acc : list (string * list Point)) (key : string) :
  ~ In key (map label tss) ->
  ownProperty key
    (fold_left
       (fun acc ts => (label ts, getExtremePoints (points ts)) :: acc) tss acc)
  = ownProperty key acc.
Proof.
  revert acc. induction tss as [|t rest IH]; intros acc Hnot; [reflexivity|].
  simpl. rewrite IH.
  - simpl. destruct (String.eqb_spec (label t) key) as [E|_]; [|reflexivity].
    exfalso. apply Hnot. left. exact E.
  - intros Hin. apply Hnot. right. exact Hin.
Qed.

(** [extremePointsByTs] holds, for a label, the extreme points of the last
    series of that label. *)
Lemma extremePointsByTs_last (before after : list TimeSeries)
  (ts : TimeSeries) :
  ~ In (label ts) (map label after) ->
  ownProperty (label ts) (extremePointsByTs (before ++ ts :: after))
  = Some (getExtremePoints (points ts)).
Proof.
  intros Hnot. unfold extremePointsByTs. rewrite fold_left_app. simpl.
  rewrite extremePointsByTs_from by exact Hnot.
  simpl. now rewrite String.eqb_refl.
Qed.

(** With distinct labels, it holds for every series its own extreme
    points. *)
Lemma extremePointsByTs_own (tss : list TimeSeries) (ts : TimeSeries) :
  In ts tss -> NoDup (map label tss) ->
  ownProperty (label ts) (extremePointsByTs tss)
  = Some (getExtremePoints (points ts)).
Proof.
  intros Hin Hnd. apply in_split in Hin. destruct Hin as (l1 & l2 & ->).
  apply extremePointsByTs_last.
  rewrite map_app in Hnd. simpl in Hnd. apply NoDup_remove_2 in Hnd.
  intros H. apply Hnd. apply in_or_app. now right.
Qed.


(** For any other label the table holds what it inherits. *)
Lemma unregistered_color_scale (turboScale : Q * Q -> Q -> string)
  (inheritedMember : string -> option ColorScale) (tsLabel : string) :
  ~ registered_label tsLabel ->
  COLOR_SCALE_BY_TS_LABEL turboScale inheritedMember tsLabel
  = inheritedMember tsLabel.
Proof.
  intros Hnot. unfold COLOR_SCALE_BY_TS_LABEL.
  destruct (String.eqb_spec tsLabel "Temperature") as [E|_].
  { exfalso. apply Hnot. now left. }
  destruct (String.eqb_spec tsLabel "Dew Point") as [E|_].
  { exfalso. apply Hnot. now right. }
  reflexivity.
Qed.


Section Scene.

Variable scaleTime : option Z * option Z -> Q * Q -> Z -> Q.
Variable scaleLinear : option Q * option Q -> Q * Q -> Q -> Q.
Hypothesis scaleTime_range : time_scale_in_range scaleTime.
Hypothesis scaleLinear_range : value_scale_in_range scaleLinear.

Variable tss : list TimeSeries.
Variable dims : Dimensions.

(** The scaled position of a sample of the chart lies between the ends of
    the ranges: [0] and the width, [height - 48] and [30]. *)
Lemma scaled_position (ts : TimeSeries) (p : Point) :
  In ts tss -> In p (points ts) ->
  (0 <= xScale_of scaleTime tss dims (time p) <= chartWidth (width dims))%Q /\
  between (height dims - 48) 30 (yScale_of scaleLinear tss dims (value p)).
Proof.
  intros Hts Hp.
  assert (Hall : In p (flat_map points tss))
    by (apply in_flat_map; eauto).
  split.
  - destruct (extent_time_bounds (map time (flat_map points tss)) (time p))
      as (d0 & d1 & E & B); [now apply in_map|].
    unfold xScale_of, xDomain. cbv zeta. rewrite E.
    pose proof (chartWidth_ge (width dims)) as Hw.
    destruct (scaleTime_range d0 d1 0%Q
                (chartWidth (width dims) - 0 - 0 - 0)%Q (time p) B) as [H|H];
      lra.
  - destruct (extent_value_bounds (map value (flat_map points tss)) (value p))
      as (d0 & d1 & E & B); [now apply in_map|].
    unfold yScale_of, yDomain. cbv zeta. rewrite E.
    destruct (scaleLinear_range d0 d1 (height dims - 0 - 18 - 30)%Q 30%Q
                (value p) B) as [H|H]; [left|right]; lra.
Qed.

End Scene.




(** That chart draws no label; its path has ten gradient colours and fifty
    vertices, of which the peak is the second, 1200/49 pixels from the left
    edge. *)
Lemma early_peak_not_labelled :
  getExtremePoints (points example_early_peak) = [example_peak] /\
  labels (Chart_series exact_scaleTime exact_scaleLinear example_turboScale
            example_no_inherited exact_gradientValues example_chart
            example_dims example_early_peak) = Returns [] /\
  Qred (xScale_of exact_scaleTime example_chart example_dims (time example_peak))
  = (1200 # 49)%Q /\
  match path (Chart_series exact_scaleTime exact_scaleLinear example_turboScale
                example_no_inherited exact_gradientValues example_chart
                example_dims example_early_peak) with
  | Returns (stops, vertices) =>
      List.length stops = 10%nat /\ List.length vertices = 50%nat
  | Throws _ => False
  end.
Proof. vm_compute. repeat split. Qed.

End LabelVisibility.

(** * Further properties of the code *)

(** ** Label placement: the remaining cases and the failures *)

Module PlacementCases.

(** The placement of a point with both neighbours, as the cascade of tests
    computes it. *)
Lemma positioning_between (D : Q) (pt q0 q1 : Point) (ps : list Point) :
  i pt <> 0 -> i pt <> Z.of_nat (length ps) - 1 ->
  at_index ps (i pt - 1) = Some q0 -> at_index ps (i pt + 1) = Some q1 ->
  getPointLabelPositioning_with D pt ps
  = if Qlt_bool (value q0) (value pt) && Qlt_bool (value q1) (value pt) then
      Returns (mkPositioning 0 (- D) (Some anchor_middle) None)
    else if Qlt_bool (value pt) (value q0) && Qlt_bool (value pt) (value q1) then
      Returns (mkPositioning 0 D (Some anchor_middle) (Some baseline_hanging))
    else if Qlt_bool (value q0) (value pt) && Qlt_bool (value pt) (value q1) then
      Returns (mkPositioning (- D) (- D) (Some anchor_end) (Some baseline_middle))
    else if Qlt_bool (value pt) (value q0) && Qlt_bool (value q1) (value pt) then
      Returns (mkPositioning D (- D) (Some anchor_start) (Some baseline_middle))
    else Returns (mkPositioning 0 0 None None).
Proof.
  intros H0 Hl E0 E1. unfold getPointLabelPositioning_with.
  assert (Hb : (i pt =? 0) || (i pt =? Z.of_nat (length ps) - 1) = false).
  { apply orb_false_iff. rewrite !Z.eqb_neq. auto. }
  now rewrite Hb, E0, E1.
Qed.

(** A sample of the series away from its ends has both neighbours. *)
Lemma neighbours_of_inner_sample (pt : Point) (ps : list Point) :
  at_index ps (i pt) = Some pt ->
  i pt <> 0 -> i pt <> Z.of_nat (length ps) - 1 ->
  exists q0 q1 : Point,
    at_index ps (i pt - 1) = Some q0 /\ at_index ps (i pt + 1) = Some q1.
Proof.
  intros E H0 Hl. pose proof (at_index_bounds _ _ _ E) as B.
  destruct (at_index ps (i pt - 1)) as [q0|] eqn:E0.
  2:{ apply at_index_None in E0. lia. }
  destruct (at_index ps (i pt + 1)) as [q1|] eqn:E1.
  2:{ apply at_index_None in E1. lia. }
  eauto.
Qed.

(** Turns the boolean tests of a cascade into comparisons. *)
Ltac compare_values :=
  repeat match goal with
         | H : Qlt_bool _ _ = true |- _ => apply Qlt_bool_iff in H
         | H : Qlt_bool _ _ = false |- _ => apply Qlt_bool_false_iff in H
         | H : _ && _ = true |- _ => apply andb_true_iff in H; destruct H
         | H : _ && _ = false |- _ => apply andb_false_iff in H; destruct H
         end.

(** X1.  For a sample of a series away from its ends: when the series
    rises through it (left neighbour strictly lower, right neighbour
    strictly higher) the label goes to the upper left, anchor "end",
    baseline "middle", offset (-D, -D); when the series falls through it,
    to the upper right, anchor "start", baseline "middle", offset (D, -D). *)
Theorem placement_on_slopes (D : Q) (pt : Point) (ps : list Point) :
  at_index ps (i pt) = Some pt ->
  i pt <> 0 -> i pt <> Z.of_nat (length ps) - 1 ->
  exists q0 q1 : Point,
    at_index ps (i pt - 1) = Some q0 /\ at_index ps (i pt + 1) = Some q1 /\
    ((value q0 < value pt)%Q -> (value pt < value q1)%Q ->
     getPointLabelPositioning_with D pt ps
     = Returns (mkPositioning (- D) (- D) (Some anchor_end) (Some baseline_middle))) /\
    ((value pt < value q0)%Q -> (value q1 < value pt)%Q ->
     getPointLabelPositioning_with D pt ps
     = Returns (mkPositioning D (- D) (Some anchor_start) (Some baseline_middle))).
Proof.
  intros E H0 Hl.
  destruct (neighbours_of_inner_sample pt ps E H0 Hl) as (q0 & q1 & E0 & E1).
  exists q0, q1. split; [exact E0|]. split; [exact E1|].
  rewrite (positioning_between D pt q0 q1 ps H0 Hl E0 E1).
  split; intros L0 L1;
    repeat match goal with
           | |- context [if ?c then _ else _] =>
               let F := fresh "F" in
               destruct c eqn:F; compare_values; try lra; try reflexivity
           end.
Qed.

Lemma placement_on_slopes_witness :
  at_index example_1231 (i example_rising) = Some example_rising /\
  i example_rising <> 0 /\
  i example_rising <> Z.of_nat (length example_1231) - 1 /\
  CoordinatesPage.getPointLabelPositioning example_rising example_1231
  = Returns (mkPositioning (- (6)) (- (6)) (Some anchor_end) (Some baseline_middle)).
Proof.
  assert (E : at_index example_1231 (i example_rising) = Some example_rising)
    by reflexivity.
  assert (H0 : i example_rising <> 0) by discriminate.
  assert (Hl : i example_rising <> Z.of_nat (length example_1231) - 1)
    by discriminate.
  repeat (split; [assumption|]).
  destruct (placement_on_slopes 6 example_rising example_1231 E H0 Hl)
    as (q0 & q1 & E0 & E1 & Hrise & _).
  injection E0 as <-. injection E1 as <-.
  apply Hrise; reflexivity.
Defined.

(** X2.  For a sample of a series, the placement is the default one
    (offset (0, 0), no anchor, no baseline) exactly when the sample is the
    first or the last of the series or its value equals the value of one of
    its neighbours. *)
Theorem placement_default_iff (D : Q) (pt : Point) (ps : list Point) :
  at_index ps (i pt) = Some pt ->
  (getPointLabelPositioning_with D pt ps = Returns (mkPositioning 0 0 None None)
   <->
   i pt = 0 \/ i pt = Z.of_nat (length ps) - 1 \/
   exists q : Point,
     (at_index ps (i pt - 1) = Some q \/ at_index ps (i pt + 1) = Some q) /\
     (value pt == value q)%Q).
Proof.
  intros E.
  destruct (Z.eq_dec (i pt) 0) as [H0|H0].
  { split; [auto|]. intros _. unfold getPointLabelPositioning_with.
    apply Z.eqb_eq in H0. now rewrite H0. }
  destruct (Z.eq_dec (i pt) (Z.of_nat (length ps) - 1)) as [Hl|Hl].
  { split; [auto|]. intros _. unfold getPointLabelPositioning_with.
    apply Z.eqb_eq in Hl. now rewrite Hl, orb_true_r. }
  destruct (neighbours_of_inner_sample pt ps E H0 Hl) as (q0 & q1 & E0 & E1).
  rewrite (positioning_between D pt q0 q1 ps H0 Hl E0 E1).
  split.
  - intros R. right. right.
    destruct (Qlt_bool (value q0) (value pt) && Qlt_bool (value q1) (value pt))
      eqn:F1; [discriminate|].
    destruct (Qlt_bool (value pt) (value q0) && Qlt_bool (value pt) (value q1))
      eqn:F2; [discriminate|].
    destruct (Qlt_bool (value q0) (value pt) && Qlt_bool (value pt) (value q1))
      eqn:F3; [discriminate|].
    destruct (Qlt_bool (value pt) (value q0) && Qlt_bool (value q1) (value pt))
      eqn:F4; [discriminate|].
    destruct (Qeq_dec (value pt) (value q0)) as [T0|T0];
      [exists q0; auto|].
    destruct (Qeq_dec (value pt) (value q1)) as [T1|T1];
      [exists q1; auto|].
    exfalso. compare_values; lra.
  - intros [H|[H|(q & Hq & T)]]; [contradiction|contradiction|].
    assert (T' : (value pt == value q0)%Q \/ (value pt == value q1)%Q).
    { destruct Hq as [Hq|Hq]; [left|right]; congruence. }
    repeat match goal with
           | |- context [if ?c then _ else _] =>
               let F := fresh "F" in
               destruct c eqn:F; compare_values; try reflexivity
           end; exfalso; destruct T'; lra.
Qed.

Lemma placement_default_iff_witness :
  at_index example_13221 (i example_plateau) = Some example_plateau /\
  (getPointLabelPositioning_with 10 example_plateau example_13221
   = Returns (mkPositioning 0 0 None None)
   <->
   i example_plateau = 0 \/
   i example_plateau = Z.of_nat (length example_13221) - 1 \/
   exists q : Point,
     (at_index example_13221 (i example_plateau - 1) = Some q \/
      at_index example_13221 (i example_plateau + 1) = Some q) /\
     (value example_plateau == value q)%Q).
Proof.
  split; [reflexivity|].
  apply (placement_default_iff 10 example_plateau example_13221).
  reflexivity.
Defined.

(** X3.  [getPointLabelPositioning] throws, a TypeError, exactly when the
    index of the point is neither 0 nor the last index and lies outside of
    the series; for every other point it returns a placement. *)
Theorem placement_throws_iff (D : Q) (pt : Point) (ps : list Point) :
  (getPointLabelPositioning_with D pt ps = Throws TypeError <->
   i pt <> 0 /\ i pt <> Z.of_nat (length ps) - 1 /\
   (i pt < 0 \/ Z.of_nat (length ps) <= i pt)) /\
  (forall err, getPointLabelPositioning_with D pt ps = Throws err ->
               err = TypeError).
Proof.
  unfold getPointLabelPositioning_with.
  destruct (Z.eqb_spec (i pt) 0) as [H0|H0]; simpl.
  { split; [split; [discriminate|tauto]|discriminate]. }
  destruct (Z.eqb_spec (i pt) (Z.of_nat (length ps) - 1)) as [Hl|Hl]; simpl.
  { split; [split; [discriminate|tauto]|discriminate]. }
  destruct (at_index ps (i pt - 1)) as [q0|] eqn:E0.
  - destruct (at_index ps (i pt + 1)) as [q1|] eqn:E1.
    + apply at_index_bounds in E0, E1.
      split.
      * split.
        -- repeat match goal with
                  | |- context [if ?c then _ else _] => destruct c
                  end; discriminate.
        -- intros (_ & _ & H). lia.
      * intros err.
        repeat match goal with
               | |- context [if ?c then _ else _] => destruct c
               end; discriminate.
    + apply at_index_bounds in E0. apply at_index_None in E1.
      split; [|congruence]. split; [intros _|reflexivity].
      repeat split; auto. lia.
  - apply at_index_None in E0.
    split; [|congruence]. split; [intros _|reflexivity].
    repeat split; auto. lia.
Qed.

End PlacementCases.

(** ** The inflection policy: what is never labelled *)

Module InflectionExtremes.
Import ChartComponent.

Lemma nil_of_no_member {A : Type} (l : list A) :
  (forall x, ~ In x l) -> l = [].
Proof.
  destruct l as [|x l]; [reflexivity|]. intros H.
  exfalso. apply (H x). now left.
Qed.

Lemma getExtremePoints_flagged (pts : list Point) (p : Point) :
  In p (getExtremePoints pts) -> In p (flagged pts).
Proof.
  unfold getExtremePoints, filteri. cbv zeta. apply filteri_from_incl.
Qed.

Lemma no_flag_no_extreme (pts : list Point) :
  flagged pts = [] -> getExtremePoints pts = [].
Proof.
  intros E. unfold getExtremePoints. now rewrite E.
Qed.

(** Two entries of a filtered array stand in the same order in the array
    that was filtered. *)
Lemma filteri_from_order {A : Type} (f : A -> Z -> bool) (arr : list A) :
  forall (k : Z) (m n : nat) (a b : A),
    (m < n)%nat ->
    nth_error (filteri_from f k arr) m = Some a ->
    nth_error (filteri_from f k arr) n = Some b ->
    exists m' n' : nat,
      (m' < n')%nat /\ nth_error arr m' = Some a /\ nth_error arr n' = Some b.
Proof.
  induction arr as [|x rest IH]; intros k m n a b Hmn Ea Eb.
  - destruct m; discriminate.
  - simpl in Ea, Eb. destruct (f x k).
    + destruct n as [|n]; [lia|]. simpl in Eb.
      destruct m as [|m]; simpl in Ea.
      * injection Ea as <-.
        assert (Hb : In b (filteri_from f (k + 1) rest))
          by (eapply nth_error_In; eauto).
        apply filteri_from_incl, In_nth_error in Hb. destruct Hb as (n' & En').
        exists 0%nat, (S n'). repeat split; [lia|exact En'].
      * destruct (IH (k + 1) m n a b) as (m' & n' & H & Em' & En'); auto; [lia|].
        exists (S m'), (S n'). repeat split; [lia|exact Em'|exact En'].
    + destruct (IH (k + 1) m n a b) as (m' & n' & H & Em' & En'); auto.
      exists (S m'), (S n'). repeat split; [lia|exact Em'|exact En'].
Qed.

(** X4.  A series of fewer than three samples has no extreme point under
    the inflection policy. *)
Theorem short_series_no_extreme (pts : list Point) :
  (length pts < 3)%nat -> getExtremePoints pts = [].
Proof.
  intros Hlen. apply no_flag_no_extreme, nil_of_no_member.
  intros p Hp. apply InflectionPolicy.In_flagged in Hp.
  destruct Hp as (k & _ & F).
  apply InflectionPolicy.isInflection_true in F.
  destruct F as (a & b & Ea & Eb & _).
  apply at_index_bounds in Ea, Eb. lia.
Qed.

Lemma short_series_no_extreme_witness :
  (length example_single < 3)%nat /\ getExtremePoints example_single = [].
Proof.
  assert (H : (length example_single < 3)%nat) by (simpl; lia).
  split; [exact H|]. exact (short_series_no_extreme example_single H).
Defined.

(** X5.  A series whose values never decrease, or never increase, from one
    sample to the next has no extreme point under the inflection policy. *)
Theorem monotone_series_no_extreme (pts : list Point) :
  (forall (k : Z) (a b : Point),
      at_index pts k = Some a -> at_index pts (k + 1) = Some b ->
      (value a <= value b)%Q) \/
  (forall (k : Z) (a b : Point),
      at_index pts k = Some a -> at_index pts (k + 1) = Some b ->
      (value b <= value a)%Q) ->
  getExtremePoints pts = [].
Proof.
  intros Hmono. apply no_flag_no_extreme, nil_of_no_member.
  intros p Hp. apply InflectionPolicy.In_flagged in Hp.
  destruct Hp as (k & Ep & F).
  apply InflectionPolicy.isInflection_true in F.
  destruct F as (a & b & Ea & Eb & H).
  assert (Ep' : at_index pts (k - 1 + 1) = Some p)
    by (replace (k - 1 + 1) with k by lia; exact Ep).
  destruct Hmono as [Hup|Hdown].
  - pose proof (Hup (k - 1) a p Ea Ep'). pose proof (Hup k p b Ep Eb). lra.
  - pose proof (Hdown (k - 1) a p Ea Ep'). pose proof (Hdown k p b Ep Eb). lra.
Qed.

Lemma monotone_series_no_extreme_witness :
  (forall (k : Z) (a b : Point),
      at_index example_1233 k = Some a -> at_index example_1233 (k + 1) = Some b ->
      (value a <= value b)%Q) /\
  getExtremePoints example_1233 = [].
Proof.
  assert (H : forall (k : Z) (a b : Point),
             at_index example_1233 k = Some a ->
             at_index example_1233 (k + 1) = Some b ->
             (value a <= value b)%Q).
  { intros k a b Ea Eb. pose proof (at_index_bounds _ _ _ Eb) as B.
    simpl in B.
    assert (K : k = 0 \/ k = 1 \/ k = 2) by (apply at_index_bounds in Ea; lia).
    destruct K as [-> | [-> | ->]];
      vm_compute in Ea, Eb; injection Ea as <-; injection Eb as <-;
      vm_compute; discriminate. }
  split; [exact H|].
  exact (monotone_series_no_extreme example_1233 (or_introl H)).
Defined.

(** X6.  In a series whose samples carry their position as index, the
    extreme points of the inflection policy come out in the order of the
    series and at least two positions apart. *)
Theorem extremes_two_apart (pts : list Point) :
  well_indexed pts ->
  forall (m n : nat) (a b : Point),
    (m < n)%nat ->
    nth_error (getExtremePoints pts) m = Some a ->
    nth_error (getExtremePoints pts) n = Some b ->
    i a + 2 <= i b.
Proof.
  intros W m n a b Hmn Ea Eb.
  assert (Ha : In a (getExtremePoints pts)) by (eapply nth_error_In; eauto).
  assert (Hb : In b (getExtremePoints pts)) by (eapply nth_error_In; eauto).
  assert (Hlt : i a < i b).
  { unfold getExtremePoints, filteri in Ea, Eb. cbv zeta in Ea, Eb.
    destruct (filteri_from_order _ _ 0 m n a b Hmn Ea Eb)
      as (m' & n' & Hmn' & Ea' & Eb').
    unfold flagged, filteri in Ea', Eb'.
    eapply (InflectionPolicy.filteri_from_increasing _ pts 0 W m' n'); eauto. }
  assert (Pa : at_index pts (i a) = Some a).
  { apply LabelVisibility.well_indexed_In; [exact W|].
    now apply LabelVisibility.getExtremePoints_incl. }
  assert (Pb : at_index pts (i b) = Some b).
  { apply LabelVisibility.well_indexed_In; [exact W|].
    now apply LabelVisibility.getExtremePoints_incl. }
  apply (InflectionPolicy.In_getExtremePoints_at pts (i a) a W Pa) in Ha.
  apply (InflectionPolicy.In_getExtremePoints_at pts (i b) b W Pb) in Hb.
  destruct Ha as (Fa & _). destruct Hb as (_ & Fb).
  destruct (Z.eq_dec (i b) (i a + 1)) as [E|NE]; [|lia].
  replace (i b - 1) with (i a) in Fb by lia. congruence.
Qed.

Lemma extremes_two_apart_witness :
  well_indexed example_zigzag /\
  (0 < 1)%nat /\
  nth_error (getExtremePoints example_zigzag) 0 = Some (mkPoint 3600000 3 1) /\
  nth_error (getExtremePoints example_zigzag) 1 = Some (mkPoint 18000000 0 5) /\
  i (mkPoint 3600000 3 1) + 2 <= i (mkPoint 18000000 0 5).
Proof.
  assert (W : well_indexed example_zigzag)
    by apply series_of_values_well_indexed.
  repeat (split; [assumption || reflexivity || lia|]).
  apply (extremes_two_apart example_zigzag W 0 1); [lia|reflexivity|reflexivity].
Defined.

(** The placement of an extreme point of the chart component, by the side
    its neighbours lie on. *)
Lemma extreme_placement (pts : list Point) (p : Point) :
  well_indexed pts -> In p (getExtremePoints pts) ->
  exists a b : Point,
    at_index pts (i p - 1) = Some a /\ at_index pts (i p + 1) = Some b /\
    (((value a < value p)%Q /\ (value b < value p)%Q /\
      getPointLabelPositioning p pts
      = Returns (mkPositioning 0 (- (10)) (Some anchor_middle) None)) \/
     ((value p < value a)%Q /\ (value p < value b)%Q /\
      getPointLabelPositioning p pts
      = Returns (mkPositioning 0 10 (Some anchor_middle) (Some baseline_hanging)))).
Proof.
  intros W Hp. apply getExtremePoints_flagged in Hp.
  apply InflectionPolicy.In_flagged in Hp. destruct Hp as (k & Ep & F).
  apply InflectionPolicy.isInflection_true in F.
  destruct F as (a & b & Ea & Eb & H).
  pose proof (well_indexed_at _ _ _ W Ep) as Hi. rewrite <- Hi in Ea, Eb.
  exists a, b. split; [exact Ea|]. split; [exact Eb|].
  pose proof (at_index_bounds _ _ _ Ea) as Ba.
  pose proof (at_index_bounds _ _ _ Eb) as Bb.
  unfold getPointLabelPositioning, D.
  rewrite (PlacementCases.positioning_between 10 p a b pts) by (auto; lia).
  destruct H as [(L0 & L1)|(L0 & L1)].
  - right. split; [exact L0|]. split; [exact L1|].
    assert (F0 : Qlt_bool (value a) (value p) = false)
      by (apply Qlt_bool_false_iff; lra).
    apply Qlt_bool_iff in L0, L1. now rewrite F0, L0, L1.
  - left. split; [exact L0|]. split; [exact L1|].
    apply Qlt_bool_iff in L0, L1. now rewrite L0, L1.
Qed.

(** X7.  In the chart component every extreme point is a strict local
    maximum, labelled above it (anchor "middle", offset (0, -10)), or a
    strict local minimum, labelled below it (anchor "middle", baseline
    "hanging", offset (0, 10)); the placements to the side and the default
    one never occur there. *)
Theorem chart_extremes_labelled_above_or_below
  (pts : list Point) (p : Point) :
  well_indexed pts -> In p (getExtremePoints pts) ->
  exists a b : Point,
    at_index pts (i p - 1) = Some a /\ at_index pts (i p + 1) = Some b /\
    (((value a < value p)%Q /\ (value b < value p)%Q /\
      getPointLabelPositioning p pts
      = Returns (mkPositioning 0 (- (10)) (Some anchor_middle) None)) \/
     ((value p < value a)%Q /\ (value p < value b)%Q /\
      getPointLabelPositioning p pts
      = Returns (mkPositioning 0 10 (Some anchor_middle) (Some baseline_hanging)))).
Proof. apply extreme_placement. Qed.

Lemma chart_extremes_labelled_above_or_below_witness :
  well_indexed example_13251 /\
  In (mkPoint 3600000 3 1) (getExtremePoints example_13251) /\
  exists a b : Point,
    at_index example_13251 (i (mkPoint 3600000 3 1) - 1) = Some a /\
    at_index example_13251 (i (mkPoint 3600000 3 1) + 1) = Some b /\
    (((value a < value (mkPoint 3600000 3 1))%Q /\
      (value b < value (mkPoint 3600000 3 1))%Q /\
      getPointLabelPositioning (mkPoint 3600000 3 1) example_13251
      = Returns (mkPositioning 0 (- (10)) (Some anchor_middle) None)) \/
     ((value (mkPoint 3600000 3 1) < value a)%Q /\
      (value (mkPoint 3600000 3 1) < value b)%Q /\
      getPointLabelPositioning (mkPoint 3600000 3 1) example_13251
      = Returns (mkPositioning 0 10 (Some anchor_middle) (Some baseline_hanging)))).
Proof.
  assert (W : well_indexed example_13251)
    by apply series_of_values_well_indexed.
  assert (H : In (mkPoint 3600000 3 1) (getExtremePoints example_13251))
    by (left; reflexivity).
  split; [exact W|]. split; [exact H|].
  exact (chart_extremes_labelled_above_or_below example_13251 _ W H).
Defined.

End InflectionExtremes.

(** ** The per-day-bucket policy: layout, ties and failures *)

Module BucketEntries.
Import CoordinatesPage.

Lemma bucket_two_entries (b : Z * Z) (pts : list Point) :
  length (getExtremePoints [b] pts) = 2%nat.
Proof. reflexivity. Qed.

Lemma In_getExtremePoints (dbs : DayBoundaries) (pts : list Point)
  (e : option Point) :
  In e (getExtremePoints dbs pts) <->
  exists b, In b dbs /\ In e (getExtremePoints [b] pts).
Proof.
  unfold getExtremePoints. rewrite in_flat_map. simpl.
  split; intros (b & Hb & He); exists b; split; auto;
    rewrite ?app_nil_r in *; assumption.
Qed.

(** X8.  The output of the per-day-bucket policy has two entries for each
    bucket, empty or not, in bucket order: the entries at positions [2k]
    and [2k + 1] are those of the bucket at position [k]. *)
Theorem bucket_entries_layout (dbs : DayBoundaries) (pts : list Point) :
  length (getExtremePoints dbs pts) = (2 * length dbs)%nat /\
  forall (k : nat) (b : Z * Z),
    nth_error dbs k = Some b ->
    firstn 2 (skipn (2 * k) (getExtremePoints dbs pts))
    = getExtremePoints [b] pts.
Proof.
  split.
  - induction dbs as [|b dbs IH]; [reflexivity|].
    rewrite BucketPolicy.getExtremePoints_cons, length_app, IH,
      bucket_two_entries.
    simpl. lia.
  - induction dbs as [|b0 dbs IH]; intros k b E.
    + destruct k; discriminate.
    + rewrite BucketPolicy.getExtremePoints_cons.
      destruct k as [|k]; simpl in E.
      * injection E as <-. reflexivity.
      * replace (2 * S k)%nat with (S (S (2 * k))) by lia.
        change (getExtremePoints [b0] pts ++ getExtremePoints dbs pts)
          with (at_index (pointsInBoundary b0 pts)
                  (minIndex (map value (pointsInBoundary b0 pts)))
                :: at_index (pointsInBoundary b0 pts)
                     (maxIndex (map value (pointsInBoundary b0 pts)))
                :: getExtremePoints dbs pts).
        simpl skipn. now apply IH.
Qed.

Lemma defined_entry_in_bucket (dbs : DayBoundaries) (pts : list Point)
  (p : Point) :
  In (Some p) (getExtremePoints dbs pts) ->
  In p pts /\ exists b, In b dbs /\ fst b <= time p < snd b.
Proof.
  intros Hp. apply In_getExtremePoints in Hp. destruct Hp as (b & Hb & Hp).
  destruct (pointsInBoundary b pts) as [|q qs] eqn:E.
  - rewrite (BucketPolicy.bucket_without_samples b pts E) in Hp.
    destruct Hp as [H|[H|[]]]; discriminate.
  - destruct (BucketPolicy.bucket_with_samples b pts)
      as (pmin & pmax & Eout & Hmin & Hmax & _); [congruence|].
    rewrite Eout in Hp.
    assert (Hin : In p (pointsInBoundary b pts)).
    { destruct Hp as [H|[H|[]]]; injection H as <-; assumption. }
    apply BucketPolicy.In_pointsInBoundary in Hin. destruct Hin as (Hpts & Ht).
    split; [exact Hpts|]. exists b. auto.
Qed.

Lemma undefined_entry_iff (dbs : DayBoundaries) (pts : list Point) :
  In None (getExtremePoints dbs pts) <->
  exists b, In b dbs /\ pointsInBoundary b pts = [].
Proof.
  rewrite In_getExtremePoints. split.
  - intros (b & Hb & Hn). exists b. split; [exact Hb|].
    destruct (pointsInBoundary b pts) as [|q qs] eqn:E; [reflexivity|].
    destruct (BucketPolicy.bucket_with_samples b pts)
      as (pmin & pmax & Eout & _); [congruence|].
    rewrite Eout in Hn. destruct Hn as [H|[H|[]]]; discriminate.
  - intros (b & Hb & E). exists b. split; [exact Hb|].
    rewrite (BucketPolicy.bucket_without_samples b pts E). now left.
Qed.

(** X9.  Every defined entry of the output is a sample of the series whose
    time lies in one of the buckets, and the output has an undefined entry
    exactly when some bucket holds no sample of the series. *)
Theorem bucket_entries_defined (dbs : DayBoundaries) (pts : list Point) :
  (forall p : Point,
      In (Some p) (getExtremePoints dbs pts) ->
      In p pts /\ exists b, In b dbs /\ fst b <= time p < snd b) /\
  (In None (getExtremePoints dbs pts) <->
   exists b, In b dbs /\ pointsInBoundary b pts = []).
Proof.
  split; [apply defined_entry_in_bucket|apply undefined_entry_iff].
Qed.

(** X10.  Among samples of equal value the earliest of the bucket wins:
    every sample of the bucket before the minimum entry has a strictly
    larger value, and every sample before the maximum entry a strictly
    smaller one; so a bucket whose samples all have the same value emits
    its first sample twice. *)
Theorem bucket_ties_go_to_earliest (b : Z * Z) (pts : list Point) :
  pointsInBoundary b pts <> [] ->
  exists (n n' : nat) (pmin pmax : Point),
    getExtremePoints [b] pts = [Some pmin; Some pmax] /\
    nth_error (pointsInBoundary b pts) n = Some pmin /\
    nth_error (pointsInBoundary b pts) n' = Some pmax /\
    (forall j q, (j < n)%nat -> nth_error (pointsInBoundary b pts) j = Some q ->
                 (value pmin < value q)%Q) /\
    (forall j q, (j < n')%nat -> nth_error (pointsInBoundary b pts) j = Some q ->
                 (value q < value pmax)%Q) /\
    ((forall q q', In q (pointsInBoundary b pts) ->
                   In q' (pointsInBoundary b pts) -> (value q == value q')%Q) ->
     n = 0%nat /\ n' = 0%nat).
Proof.
  intros Hne. set (inB := pointsInBoundary b pts) in *.
  assert (Hv : map value inB <> []).
  { intros E. apply map_eq_nil in E. contradiction. }
  destruct (BucketPolicy.minIndex_spec _ Hv) as (n & m & En & Em & _ & Hfirst).
  destruct (BucketPolicy.maxIndex_spec _ Hv) as (n' & m' & En' & Em' & _ & Hfirst').
  rewrite nth_error_map in Em, Em'.
  destruct (nth_error inB n) as [pmin|] eqn:Epmin; [|discriminate].
  destruct (nth_error inB n') as [pmax|] eqn:Epmax; [|discriminate].
  simpl in Em, Em'. injection Em as <-. injection Em' as <-.
  assert (Hlow : forall j q, (j < n)%nat -> nth_error inB j = Some q ->
                             (value pmin < value q)%Q).
  { intros j q Hj Eq. apply (Hfirst j (value q) Hj).
    rewrite nth_error_map, Eq. reflexivity. }
  assert (Hhigh : forall j q, (j < n')%nat -> nth_error inB j = Some q ->
                              (value q < value pmax)%Q).
  { intros j q Hj Eq. apply (Hfirst' j (value q) Hj).
    rewrite nth_error_map, Eq. reflexivity. }
  exists n, n', pmin, pmax. repeat split; auto.
  - unfold getExtremePoints. simpl. fold inB.
    now rewrite En, En', !at_index_of_nat, Epmin, Epmax.
  - destruct n as [|n]; [reflexivity|exfalso].
    destruct inB as [|q0 rest] eqn:EinB; [contradiction|].
    pose proof (Hlow 0%nat q0 ltac:(lia) eq_refl) as L.
    assert (T : (value pmin == value q0)%Q).
    { apply H; [eapply nth_error_In; eauto|now left]. }
    lra.
  - destruct n' as [|n']; [reflexivity|exfalso].
    destruct inB as [|q0 rest] eqn:EinB; [contradiction|].
    pose proof (Hhigh 0%nat q0 ltac:(lia) eq_refl) as L.
    assert (T : (value pmax == value q0)%Q).
    { apply H; [eapply nth_error_In; eauto|now left]. }
    lra.
Qed.

Lemma bucket_ties_go_to_earliest_witness :
  pointsInBoundary example_bucket example_1331 <> [] /\
  exists (n n' : nat) (pmin pmax : Point),
    getExtremePoints [example_bucket] example_1331 = [Some pmin; Some pmax] /\
    nth_error (pointsInBoundary example_bucket example_1331) n = Some pmin /\
    nth_error (pointsInBoundary example_bucket example_1331) n' = Some pmax /\
    (forall j q, (j < n)%nat ->
                 nth_error (pointsInBoundary example_bucket example_1331) j = Some q ->
                 (value pmin < value q)%Q) /\
    (forall j q, (j < n')%nat ->
                 nth_error (pointsInBoundary example_bucket example_1331) j = Some q ->
                 (value q < value pmax)%Q) /\
    ((forall q q', In q (pointsInBoundary example_bucket example_1331) ->
                   In q' (pointsInBoundary example_bucket example_1331) ->
                   (value q == value q')%Q) ->
     n = 0%nat /\ n' = 0%nat).
Proof.
  assert (H : pointsInBoundary example_bucket example_1331 <> [])
    by discriminate.
  split; [exact H|].
  exact (bucket_ties_go_to_earliest example_bucket example_1331 H).
Defined.

(** The two entries of that bucket: the first 1 and the first 3. *)
Lemma bucket_ties_example :
  getExtremePoints [example_bucket] example_1331
  = [Some (mkPoint 0 1 0); Some (mkPoint 3600000 3 1)].
Proof. reflexivity. Qed.

(** X11.  On a series whose samples carry their position as index, the
    label placements that the chart of the coordinates page computes for
    the entries all return exactly when every bucket holds a sample of the
    series; an empty bucket makes the placement of its entries throw. *)
Theorem page_placements_return_iff (dbs : DayBoundaries) (pts : list Point) :
  well_indexed pts ->
  ((forall entry, In entry (getExtremePoints dbs pts) ->
                  exists pos, labelPositioning entry pts = Returns pos)
   <->
   (forall b, In b dbs -> pointsInBoundary b pts <> [])).
Proof.
  intros W. split.
  - intros Hret b Hb E.
    destruct (Hret None) as (pos & Hpos); [|discriminate].
    apply undefined_entry_iff. eauto.
  - intros Hfull [p|] He.
    + apply defined_entry_in_bucket in He. destruct He as (Hp & _).
      unfold labelPositioning, getPointLabelPositioning.
      apply LabelPlacement.label_placement_returns.
      now apply LabelVisibility.well_indexed_In.
    + apply undefined_entry_iff in He.
      destruct He as (b & Hb & E). exfalso. exact (Hfull b Hb E).
Qed.

Lemma page_placements_return_iff_witness :
  well_indexed example_second_day /\
  ((forall entry,
       In entry (getExtremePoints [example_next_bucket] example_second_day) ->
       exists pos, labelPositioning entry example_second_day = Returns pos)
   <->
   (forall b, In b [example_next_bucket] ->
              pointsInBoundary b example_second_day <> [])).
Proof.
  assert (W : well_indexed example_second_day).
  { intros [|[|n]] p E; simpl in E; try discriminate.
    injection E as <-. reflexivity. }
  split; [exact W|].
  exact (page_placements_return_iff [example_next_bucket] example_second_day W).
Defined.

End BucketEntries.

(** ** From the feed to the series: [toPoints] *)

Module FeedPoints.
Import LocationPage.

Lemma string_length_append (a b : string) :
  String.length (a ++ b)%string = (String.length a + String.length b)%nat.
Proof.
  induction a as [|c a IH]; simpl; [reflexivity|]. now rewrite IH.
Qed.

Lemma substring_prefix (a b : string) :
  substring 0 (String.length a) (a ++ b)%string = a.
Proof.
  induction a as [|c a IH]; simpl.
  - destruct b; reflexivity.
  - now rewrite IH.
Qed.

(** A search that fails from one position fails from every position. *)
Lemma indexOf_from_none (c : ascii) (s : string) :
  forall k k' : Z,
    0 <= k -> indexOf_from c s k = -1 -> indexOf_from c s k' = -1.
Proof.
  induction s as [|a rest IH]; intros k k' Hk E; simpl in *; [reflexivity|].
  destruct (Ascii.eqb a c); [lia|].
  apply (IH (k + 1)); [lia|exact E].
Qed.

(** The first occurrence of [c] after a prefix that holds none. *)
Lemma indexOf_from_after_prefix (c : ascii) (a b : string) :
  forall k : Z,
    0 <= k -> indexOf_from c a 0 = -1 ->
    indexOf_from c (a ++ String c b)%string k = k + Z.of_nat (String.length a).
Proof.
  induction a as [|x a IH]; intros k Hk E; simpl in *.
  - rewrite Ascii.eqb_refl. lia.
  - destruct (Ascii.eqb x c); [lia|].
    rewrite (IH (k + 1)); [lia|lia|].
    apply (indexOf_from_none c a 1); [lia|exact E].
Qed.

Lemma mapi_from_length {A B : Type} (f : A -> Z -> B) (arr : list A) :
  forall k, length (mapi_from f k arr) = length arr.
Proof.
  induction arr as [|x rest IH]; intros k; simpl; [reflexivity|].
  now rewrite IH.
Qed.

Lemma mapi_from_nth {A B : Type} (f : A -> Z -> B) (arr : list A) :
  forall (k : Z) (n : nat),
    nth_error (mapi_from f k arr) n
    = option_map (fun x => f x (k + Z.of_nat n)) (nth_error arr n).
Proof.
  induction arr as [|x rest IH]; intros k n.
  - destruct n; reflexivity.
  - destruct n as [|n]; simpl.
    + now rewrite Z.add_0_r.
    + rewrite IH. destruct (nth_error rest n); simpl; [|reflexivity].
      do 2 f_equal. lia.
Qed.

Lemma asPoints_nth (rps : list RawPoint) :
  forall pts : list Point,
    asPoints rps = Some pts ->
    forall (n : nat) (p : Point),
      nth_error pts n = Some p ->
      exists rp, nth_error rps n = Some rp /\ asPoint rp = Some p.
Proof.
  induction rps as [|rp rest IH]; intros pts E n p Ep; simpl in E.
  - injection E as <-. destruct n; discriminate.
  - destruct (asPoint rp) as [q|] eqn:Eq; [|discriminate].
    destruct (asPoints rest) as [qs|] eqn:Eqs; [|discriminate].
    injection E as <-. destruct n as [|n]; simpl in Ep.
    + injection Ep as <-. exists rp. auto.
    + destruct (IH qs eq_refl n p Ep) as (rp' & E' & A'). exists rp'. auto.
Qed.

Lemma asPoints_values (rps : list RawPoint) :
  forall pts : list Point,
    asPoints rps = Some pts -> map value pts = map raw_value rps.
Proof.
  induction rps as [|rp rest IH]; intros pts E; simpl in E.
  - now injection E as <-.
  - destruct (asPoint rp) as [q|] eqn:Eq; [|discriminate].
    destruct (asPoints rest) as [qs|] eqn:Eqs; [|discriminate].
    injection E as <-. simpl. rewrite (IH qs eq_refl). f_equal.
    unfold asPoint in Eq. destruct (raw_time rp); [|discriminate].
    now injection Eq as <-.
Qed.

Lemma toPoints_values (Date_parse : string -> option Z)
  (values : list GridValue) :
  map raw_value (toPoints Date_parse values) = map gridValue values.
Proof.
  unfold toPoints, mapi. generalize 0.
  induction values as [|v rest IH]; intros k; simpl; [reflexivity|].
  now rewrite IH.
Qed.

(** X12.  [toPoints] keeps the number and the order of the entries of the
    feed: the point at position [n] carries index [n], the value of entry
    [n] and the time parsed from the time stamp of entry [n]; so when every
    time stamp is read the series carries its positions as indices, which
    the extreme point detection and the label placement rely on. *)
Theorem toPoints_indexed (Date_parse : string -> option Z)
  (values : list GridValue) :
  length (toPoints Date_parse values) = length values /\
  (forall (n : nat) (rp : RawPoint),
      nth_error (toPoints Date_parse values) n = Some rp ->
      raw_i rp = Z.of_nat n /\
      exists v : GridValue,
        nth_error values n = Some v /\
        raw_value rp = gridValue v /\
        raw_time rp = Date_parse (timePart (validTime v))) /\
  (forall pts : list Point,
      asPoints (toPoints Date_parse values) = Some pts ->
      well_indexed pts /\ map value pts = map gridValue values).
Proof.
  assert (Hnth : forall (n : nat) (rp : RawPoint),
             nth_error (toPoints Date_parse values) n = Some rp ->
             raw_i rp = Z.of_nat n /\
             exists v : GridValue,
               nth_error values n = Some v /\
               raw_value rp = gridValue v /\
               raw_time rp = Date_parse (timePart (validTime v))).
  { intros n rp E. unfold toPoints, mapi in E. rewrite mapi_from_nth in E.
    destruct (nth_error values n) as [v|]; [|discriminate].
    simpl in E. injection E as <-. simpl. split; [reflexivity|]. eauto. }
  split; [apply mapi_from_length|]. split; [exact Hnth|].
  intros pts E. split.
  - intros n p Ep.
    destruct (asPoints_nth _ pts E n p Ep) as (rp & Erp & A).
    destruct (Hnth n rp Erp) as (Hi & _).
    unfold asPoint in A. destruct (raw_time rp); [|discriminate].
    injection A as <-. simpl. lia.
  - rewrite (asPoints_values _ pts E). apply toPoints_values.
Qed.

(** X13.  For a time stamp written [a/b] where [a] holds no "/", the text
    that [toPoints] hands to [Date.parse] is [a]: the start of the
    interval, without its duration. *)
Theorem timePart_before_slash (a b : string) :
  indexOf a "/"%char = -1 ->
  timePart (a ++ String "/"%char b)%string = a.
Proof.
  intros Hno. unfold timePart, indexOf, js_slice.
  rewrite (indexOf_from_after_prefix "/"%char a b 0 ltac:(lia) Hno).
  rewrite string_length_append. simpl String.length. cbv zeta.
  unfold sliceIndex.
  assert (E1 : (0 <? 0) = false) by reflexivity.
  assert (E2 : (0 + Z.of_nat (String.length a) <? 0) = false)
    by (apply Z.ltb_ge; lia).
  rewrite E1, E2.
  replace (Z.to_nat (Z.min 0 _)) with 0%nat by lia.
  replace (Z.to_nat (Z.max _ 0)) with (String.length a) by lia.
  apply substring_prefix.
Qed.

Lemma timePart_before_slash_witness :
  indexOf "2024-01-10T05:00:00+00:00"%string "/"%char = -1 /\
  timePart "2024-01-10T05:00:00+00:00/PT1H"%string
  = "2024-01-10T05:00:00+00:00"%string.
Proof.
  split; [reflexivity|].
  apply (timePart_before_slash "2024-01-10T05:00:00+00:00"%string "PT1H"%string).
  reflexivity.
Defined.

(** X14.  A time stamp that holds no "/" loses its last character before it
    is parsed: [indexOf] answers -1, which [slice] reads as "up to the last
    character". *)
Theorem timePart_without_slash (s : string) (c : ascii) :
  indexOf (s ++ String c "")%string "/"%char = -1 ->
  timePart (s ++ String c "")%string = s.
Proof.
  intros Hno. unfold timePart, js_slice. rewrite Hno.
  rewrite string_length_append. simpl String.length. cbv zeta.
  unfold sliceIndex.
  assert (E1 : (0 <? 0) = false) by reflexivity.
  assert (E2 : (-1 <? 0) = true) by reflexivity.
  rewrite E1, E2.
  replace (Z.to_nat (Z.min 0 _)) with 0%nat by lia.
  replace (Z.to_nat (Z.max _ 0)) with (String.length s) by lia.
  apply substring_prefix.
Qed.

Lemma timePart_without_slash_witness :
  indexOf ("2024-01-10T05:00:00" ++ String "Z"%char "")%string "/"%char = -1 /\
  timePart ("2024-01-10T05:00:00" ++ String "Z"%char "")%string
  = "2024-01-10T05:00:00"%string.
Proof.
  split; [reflexivity|].
  apply (timePart_without_slash "2024-01-10T05:00:00"%string "Z"%char).
  reflexivity.
Defined.

End FeedPoints.

(** ** The chart: domains, positions and day buckets *)

Module ChartScene.
Import ChartComponent.

(** The ends of an extent are values of the array. *)
Lemma extent_loop_members {A : Type} (lt : A -> A -> bool) (values : list A) :
  forall mn0 mx0 mn mx : A,
    extent_loop lt (Some (mn0, mx0)) values = Some (mn, mx) ->
    (mn = mn0 \/ In mn values) /\ (mx = mx0 \/ In mx values).
Proof.
  induction values as [|v rest IH]; intros mn0 mx0 mn mx E; simpl in E.
  - injection E as <- <-. auto.
  - apply IH in E. destruct E as (Hmn & Hmx). split.
    + destruct Hmn as [->|H]; [|right; now right].
      destruct (lt v mn0); [right; now left|now left].
    + destruct Hmx as [->|H]; [|right; now right].
      destruct (lt mx0 v); [right; now left|now left].
Qed.

Lemma extent_members {A : Type} (lt : A -> A -> bool) (values : list A)
  (d0 d1 : A) :
  extent lt values = (Some d0, Some d1) -> In d0 values /\ In d1 values.
Proof.
  destruct values as [|v rest]; [discriminate|].
  unfold extent. simpl.
  destruct (extent_loop lt (Some (v, v)) rest) as [[mn mx]|] eqn:E;
    [|discriminate].
  intros H. injection H as <- <-.
  apply extent_loop_members in E. destruct E as ([->|H0] & [->|H1]);
    split; (now left) || (now right).
Qed.

(** X15.  The time domain of the chart is shared by its series and tight:
    when the chart has a sample, both ends of the domain are times of
    samples of the chart and every sample of every series lies between
    them; likewise for the value domain. *)
Theorem domains_shared_and_tight (tss : list TimeSeries) (ts0 : TimeSeries)
  (p0 : Point) :
  In ts0 tss -> In p0 (points ts0) ->
  exists (t0 t1 : Z) (v0 v1 : Q),
    xDomain tss = (Some t0, Some t1) /\ yDomain tss = (Some v0, Some v1) /\
    (exists ts p, In ts tss /\ In p (points ts) /\ time p = t0) /\
    (exists ts p, In ts tss /\ In p (points ts) /\ time p = t1) /\
    (exists ts p, In ts tss /\ In p (points ts) /\ value p = v0) /\
    (exists ts p, In ts tss /\ In p (points ts) /\ value p = v1) /\
    forall ts p, In ts tss -> In p (points ts) ->
                 t0 <= time p <= t1 /\ (v0 <= value p <= v1)%Q.
Proof.
  intros Hts Hp.
  assert (Hall : In p0 (flat_map points tss)) by (apply in_flat_map; eauto).
  destruct (extent_time_bounds (map time (flat_map points tss)) (time p0))
    as (t0 & t1 & Ex & _); [now apply in_map|].
  destruct (extent_value_bounds (map value (flat_map points tss)) (value p0))
    as (v0 & v1 & Ey & _); [now apply in_map|].
  assert (Hsample : forall (B : Type) (f : Point -> B) (d : B),
             In d (map f (flat_map points tss)) ->
             exists ts p, In ts tss /\ In p (points ts) /\ f p = d).
  { intros B f d Hd. apply in_map_iff in Hd. destruct Hd as (p & E & Hin).
    apply in_flat_map in Hin. destruct Hin as (ts & H1 & H2). eauto. }
  destruct (extent_members _ _ _ _ Ex) as (Ht0 & Ht1).
  destruct (extent_members _ _ _ _ Ey) as (Hv0 & Hv1).
  exists t0, t1, v0, v1. unfold xDomain, yDomain.
  repeat (split; [solve [assumption | now apply Hsample]|]).
  intros ts p Hts' Hp'.
  assert (Hall' : In p (flat_map points tss)) by (apply in_flat_map; eauto).
  destruct (extent_time_bounds (map time (flat_map points tss)) (time p))
    as (t0' & t1' & Ex' & Bx); [now apply in_map|].
  destruct (extent_value_bounds (map value (flat_map points tss)) (value p))
    as (v0' & v1' & Ey' & By); [now apply in_map|].
  rewrite Ex in Ex'. rewrite Ey in Ey'.
  injection Ex' as <- <-. injection Ey' as <- <-. auto.
Qed.

Lemma domains_shared_and_tight_witness :
  In example_early_peak example_chart /\
  In example_peak (points example_early_peak) /\
  exists (t0 t1 : Z) (v0 v1 : Q),
    xDomain example_chart = (Some t0, Some t1) /\
    yDomain example_chart = (Some v0, Some v1) /\
    (exists ts p, In ts example_chart /\ In p (points ts) /\ time p = t0) /\
    (exists ts p, In ts example_chart /\ In p (points ts) /\ time p = t1) /\
    (exists ts p, In ts example_chart /\ In p (points ts) /\ value p = v0) /\
    (exists ts p, In ts example_chart /\ In p (points ts) /\ value p = v1) /\
    forall ts p, In ts example_chart -> In p (points ts) ->
                 t0 <= time p <= t1 /\ (v0 <= value p <= v1)%Q.
Proof.
  assert (Hts : In example_early_peak example_chart) by (left; reflexivity).
  assert (Hp : In example_peak (points example_early_peak))
    by (right; left; reflexivity).
  split; [exact Hts|]. split; [exact Hp|].
  exact (domains_shared_and_tight example_chart example_early_peak
           example_peak Hts Hp).
Defined.

(** X16.  With scales that send their domain between the ends of their
    range, every sample of the chart is drawn inside the plot area: its x
    lies between 0 and the width the chart draws at, which is never below
    1000, and its y between 30 and the height minus 48. *)
Theorem samples_drawn_in_plot_area
  (scaleTime : option Z * option Z -> Q * Q -> Z -> Q)
  (scaleLinear : option Q * option Q -> Q * Q -> Q -> Q)
  (tss : list TimeSeries) (dims : Dimensions) (ts : TimeSeries) (p : Point) :
  time_scale_in_range scaleTime ->
  value_scale_in_range scaleLinear ->
  In ts tss -> In p (points ts) ->
  (1000 <= chartWidth (width dims))%Q /\
  (0 <= xScale_of scaleTime tss dims (time p) <= chartWidth (width dims))%Q /\
  between (height dims - 48) 30 (yScale_of scaleLinear tss dims (value p)).
Proof.
  intros Hsx Hsy Hts Hp. split; [apply LabelVisibility.chartWidth_ge|].
  exact (LabelVisibility.scaled_position scaleTime scaleLinear Hsx Hsy
           tss dims ts p Hts Hp).
Qed.

Lemma samples_drawn_in_plot_area_witness :
  time_scale_in_range exact_scaleTime /\
  value_scale_in_range exact_scaleLinear /\
  In example_early_peak example_chart /\
  In example_peak (points example_early_peak) /\
  (1000 <= chartWidth (width example_dims))%Q /\
  (0 <= xScale_of exact_scaleTime example_chart example_dims (time example_peak)
   <= chartWidth (width example_dims))%Q /\
  between (height example_dims - 48) 30
    (yScale_of exact_scaleLinear example_chart example_dims (value example_peak)).
Proof.
  assert (Hts : In example_early_peak example_chart) by (left; reflexivity).
  assert (Hp : In example_peak (points example_early_peak))
    by (right; left; reflexivity).
  split; [exact exact_scaleTime_in_range|].
  split; [exact exact_scaleLinear_in_range|].
  split; [exact Hts|]. split; [exact Hp|].
  exact (samples_drawn_in_plot_area exact_scaleTime exact_scaleLinear
           example_chart example_dims example_early_peak example_peak
           exact_scaleTime_in_range exact_scaleLinear_in_range Hts Hp).
Defined.

(** X17.  In a viewport at least 78 pixels tall (the 18px band and the two
    30px margins), the tests of [PointLabel] on y never hide a label: the
    label of a sample of the chart is left out exactly when its x lies
    less than 30 from the left or from the right edge. *)
Theorem labels_hidden_sideways_only
  (scaleTime : option Z * option Z -> Q * Q -> Z -> Q)
  (scaleLinear : option Q * option Q -> Q * Q -> Q -> Q)
  (tss : list TimeSeries) (dims : Dimensions) (ts : TimeSeries) (p : Point) :
  time_scale_in_range scaleTime ->
  value_scale_in_range scaleLinear ->
  (78 <= height dims)%Q ->
  In ts tss -> well_indexed (points ts) -> In p (points ts) ->
  (PointLabel p (points ts)
     (xScale_of scaleTime tss dims (time p))
     (yScale_of scaleLinear tss dims (value p))
     (chartWidth (width dims)) (height dims) = Returns None
   <->
   (xScale_of scaleTime tss dims (time p) < 30)%Q \/
   (chartWidth (width dims) - 30 < xScale_of scaleTime tss dims (time p))%Q).
Proof.
  intros Hsx Hsy Htall Hts W Hp.
  destruct (LabelVisibility.scaled_position scaleTime scaleLinear Hsx Hsy
              tss dims ts p Hts Hp) as (Hx & Hy).
  assert (Hy' : (30 <= yScale_of scaleLinear tss dims (value p)
                 <= height dims - 48)%Q)
    by (destruct Hy as [Hy|Hy]; lra).
  set (x := xScale_of scaleTime tss dims (time p)) in *.
  set (y := yScale_of scaleLinear tss dims (value p)) in *.
  set (w := chartWidth (width dims)) in *.
  unfold PointLabel, getPointLabelPositioning.
  destruct (LabelPlacement.label_placement_returns D p (points ts)
              (LabelVisibility.well_indexed_In _ _ W Hp)) as (pos & ->).
  assert (Fy : Qlt_bool y MIN_SPACE_FOR_INNER_LABELS = false)
    by (apply Qlt_bool_false_iff; unfold MIN_SPACE_FOR_INNER_LABELS; lra).
  assert (Fh : Qlt_bool (Qabs (height dims - y)) MIN_SPACE_FOR_INNER_LABELS
               = false).
  { apply Qlt_bool_false_iff. unfold MIN_SPACE_FOR_INNER_LABELS.
    rewrite Qabs_pos by lra. lra. }
  rewrite Fy, Fh, !orb_false_r.
  assert (Ew : (Qabs (w - x) == w - x)%Q) by (apply Qabs_pos; lra).
  split.
  - intros R.
    destruct (Qlt_bool x MIN_SPACE_FOR_INNER_LABELS) eqn:Fx.
    + left. apply Qlt_bool_iff in Fx. exact Fx.
    + destruct (Qlt_bool (Qabs (w - x)) MIN_SPACE_FOR_INNER_LABELS) eqn:Fw;
        [|simpl in R; discriminate].
      right. apply Qlt_bool_iff in Fw.
      unfold MIN_SPACE_FOR_INNER_LABELS in Fw. rewrite Ew in Fw. lra.
  - intros [Hl|Hr].
    + assert (Fx : Qlt_bool x MIN_SPACE_FOR_INNER_LABELS = true)
        by (apply Qlt_bool_iff; exact Hl).
      now rewrite Fx.
    + assert (Fw : Qlt_bool (Qabs (w - x)) MIN_SPACE_FOR_INNER_LABELS = true).
      { apply Qlt_bool_iff. unfold MIN_SPACE_FOR_INNER_LABELS.
        rewrite Ew. lra. }
      now rewrite Fw, orb_true_r.
Qed.

Lemma labels_hidden_sideways_only_witness :
  time_scale_in_range exact_scaleTime /\
  value_scale_in_range exact_scaleLinear /\
  (78 <= height example_dims)%Q /\
  In example_early_peak example_chart /\
  well_indexed (points example_early_peak) /\
  In example_peak (points example_early_peak) /\
  (PointLabel example_peak (points example_early_peak)
     (xScale_of exact_scaleTime example_chart example_dims (time example_peak))
     (yScale_of exact_scaleLinear example_chart example_dims (value example_peak))
     (chartWidth (width example_dims)) (height example_dims) = Returns None
   <->
   (xScale_of exact_scaleTime example_chart example_dims (time example_peak)
    < 30)%Q \/
   (chartWidth (width example_dims) - 30
    < xScale_of exact_scaleTime example_chart example_dims (time example_peak))%Q).
Proof.
  assert (H78 : (78 <= height example_dims)%Q) by (vm_compute; discriminate).
  assert (Hts : In example_early_peak example_chart) by (left; reflexivity).
  assert (W : well_indexed (points example_early_peak))
    by apply series_of_values_well_indexed.
  assert (Hp : In example_peak (points example_early_peak))
    by (right; left; reflexivity).
  split; [exact exact_scaleTime_in_range|].
  split; [exact exact_scaleLinear_in_range|].
  repeat (split; [assumption|]).
  exact (labels_hidden_sideways_only exact_scaleTime exact_scaleLinear
           example_chart example_dims example_early_peak example_peak
           exact_scaleTime_in_range exact_scaleLinear_in_range H78 Hts W Hp).
Defined.

End ChartScene.

(** ** The day buckets of a chart *)

Section ChartDays.

Variable C : ZoneCalendar.
Hypothesis laws : ZoneLaws C.

(** Where the run of days from [s] stops, for [s <= e]: strictly after
    [e] unless [e] is a day start, and at once only when [s = e] is one. *)
Lemma boundaries_reach (s e : Z) (l : DayBoundaries) (last : Z) :
  s <= e ->
  day_chain C (startOfDay C s) l last -> e <= last ->
  Forall (fun iv => fst iv < e) l ->
  (e < last <-> ~ is_day_start C e) /\
  (l = [] <-> s = e /\ is_day_start C e).
Proof.
  intros Hse Hch Hlast Hbefore.
  pose proof (startOfDay_is_day_start C laws s) as Hs.
  pose proof (in_own_day C laws s) as Is.
  destruct (day_chain_days C laws _ _ _ Hch Hs) as (Hl & Hle & Hall).
  destruct l as [|iv l'].
  - inversion Hch; subst.
    assert (E : e = s) by lia. subst e.
    assert (Es : startOfDay C s = s) by lia.
    split; split; auto; try lia; try discriminate.
    intros H. exfalso. apply H. exact Es.
  - destruct (day_chain_last C _ _ _ Hch) as (a & Hin & Ha); [discriminate|].
    rewrite Forall_forall in Hall, Hbefore.
    destruct (Hall _ Hin) as (Sa & _ & Hge & _).
    pose proof (Hbefore _ Hin) as Hlt. simpl in *.
    split; split.
    + intros H He.
      assert (startOfDay C e = a).
      { transitivity (startOfDay C a); [|exact Sa].
        apply (same_day C laws). rewrite Sa. lia. }
      unfold is_day_start in He. lia.
    + intros H. destruct (Z.eq_dec e last) as [->|NE]; [contradiction|lia].
    + discriminate.
    + intros (-> & He). unfold is_day_start in He. lia.
Qed.

End ChartDays.

Module ChartBuckets.
Import ChartComponent.

(** X18.  For a chart with a sample, the day boundaries are computed
    without a throw; every sample of every series lies in exactly one of
    them, but for the samples at the latest time of the chart when that
    time is a local midnight, which lie in none; and there is no boundary
    at all exactly when all samples share one time that is a local
    midnight. *)
Theorem chart_day_buckets (C : ZoneCalendar) (laws : ZoneLaws C)
  (tss : list TimeSeries) (ts0 : TimeSeries) (p0 : Point) :
  In ts0 tss -> In p0 (points ts0) ->
  exists (t0 t1 : Z) (l : DayBoundaries),
    xDomain tss = (Some t0, Some t1) /\
    (forall fuel,
        (Z.to_nat (t1 - startOfDay C t0) <= fuel)%nat ->
        Chart_dayBoundaries C fuel tss = Some (Returns l)) /\
    (l = [] <-> t0 = t1 /\ is_day_start C t1) /\
    forall ts p, In ts tss -> In p (points ts) ->
      ((exists iv, In iv l /\ within iv (time p)) <->
       time p < t1 \/ ~ is_day_start C t1) /\
      (forall iv iv', In iv l -> In iv' l ->
                      within iv (time p) -> within iv' (time p) -> iv = iv').
Proof.
  intros Hts0 Hp0.
  assert (Hall0 : In p0 (flat_map points tss)) by (apply in_flat_map; eauto).
  destruct (extent_time_bounds (map time (flat_map points tss)) (time p0))
    as (t0 & t1 & Ex & B0); [now apply in_map|].
  destruct (getDayBoundaries_days C laws t0 t1)
    as (l & last & Hrun & Hch & Hlast & Hbefore).
  pose proof (startOfDay_is_day_start C laws t0) as Hs.
  pose proof (in_own_day C laws t0) as I0.
  destruct (boundaries_reach C laws t0 t1 l last ltac:(lia) Hch Hlast Hbefore)
    as (Hend & Hnil).
  exists t0, t1, l. split; [exact Ex|]. split.
  { intros fuel Hfuel. unfold Chart_dayBoundaries.
    change (xDomain tss) with (extent Z.ltb (map time (flat_map points tss))).
    rewrite Ex. simpl. now apply Hrun. }
  split; [exact Hnil|].
  intros ts p Hts Hp.
  assert (Hall : In p (flat_map points tss)) by (apply in_flat_map; eauto).
  destruct (extent_time_bounds (map time (flat_map points tss)) (time p))
    as (t0' & t1' & Ex' & B); [now apply in_map|].
  rewrite Ex in Ex'. injection Ex' as <- <-.
  split.
  - rewrite (day_chain_covers C laws _ _ _ Hch Hs (time p)). split.
    + intros (_ & Hp_last).
      destruct (Z.eq_dec (time p) t1) as [E|NE]; [right|left; lia].
      apply Hend. lia.
    + intros [H|H]; [lia|]. apply Hend in H. lia.
  - intros iv iv' Hin Hin' Hw Hw'.
    apply In_nth_error in Hin, Hin'.
    destruct Hin as (m & Em). destruct Hin' as (n & En).
    destruct (Nat.eq_dec m n) as [->|NE]; [congruence|].
    exfalso.
    exact (day_chain_non_overlapping C laws _ _ _ Hch Hs m n iv iv' NE Em En
             (time p) (conj Hw Hw')).
Qed.

Lemma chart_day_buckets_witness :
  ZoneLaws NewYork /\
  In example_early_peak example_chart /\
  In example_peak (points example_early_peak) /\
  exists (t0 t1 : Z) (l : DayBoundaries),
    xDomain example_chart = (Some t0, Some t1) /\
    (forall fuel,
        (Z.to_nat (t1 - startOfDay NewYork t0) <= fuel)%nat ->
        Chart_dayBoundaries NewYork fuel example_chart = Some (Returns l)) /\
    (l = [] <-> t0 = t1 /\ is_day_start NewYork t1) /\
    forall ts p, In ts example_chart -> In p (points ts) ->
      ((exists iv, In iv l /\ within iv (time p)) <->
       time p < t1 \/ ~ is_day_start NewYork t1) /\
      (forall iv iv', In iv l -> In iv' l ->
                      within iv (time p) -> within iv' (time p) -> iv = iv').
Proof.
  assert (Hts : In example_early_peak example_chart) by (left; reflexivity).
  assert (Hp : In example_peak (points example_early_peak))
    by (right; left; reflexivity).
  split; [exact NewYork_laws|]. split; [exact Hts|]. split; [exact Hp|].
  exact (chart_day_buckets NewYork NewYork_laws example_chart
           example_early_peak example_peak Hts Hp).
Defined.

End ChartBuckets.

(** ** The day segmenter: a later end only adds days *)

Section LaterEnd.

Variable C : ZoneCalendar.
Hypothesis laws : ZoneLaws C.

(** Two runs of days from the same day start, the second one up to a later
    end: the first is the beginning of the second. *)
Lemma day_chain_prefix (cur : Z) (l : DayBoundaries) (last : Z) :
  day_chain C cur l last ->
  forall (e e' : Z) (l' : DayBoundaries) (last' : Z),
    is_day_start C cur -> e <= e' ->
    Forall (fun iv => fst iv < e) l ->
    day_chain C cur l' last' -> e' <= last' ->
    exists rest, l' = l ++ rest.
Proof.
  induction 1 as [cur|cur l last Hch IH];
    intros e e' l' last' Hc Hee Hbefore Hch' Hlast'.
  - exists l'. reflexivity.
  - inversion Hbefore as [|iv l0 Hcur Hrest]; subst. simpl in Hcur.
    inversion Hch' as [cur0|cur0 l1 last1 Hch1]; subst.
    + lia.
    + destruct (IH e e' l1 last' (day_start_next C laws cur Hc) Hee Hrest
                  Hch1 Hlast') as (rest & ->).
      exists rest. reflexivity.
Qed.

End LaterEnd.

Module SegmenterGrowth.

(** X20.  Moving [endTime] later only adds days at the end: the boundaries
    for [endTime] are the first boundaries for any later [endTime'], the
    start time being the same. *)
Theorem later_end_appends_days (C : ZoneCalendar) (laws : ZoneLaws C)
  (startTime endTime endTime' : Z) :
  endTime <= endTime' ->
  exists l rest : DayBoundaries,
    (forall fuel,
        (Z.to_nat (endTime - startOfDay C startTime) <= fuel)%nat ->
        getDayBoundaries C fuel (Some startTime) (Some endTime)
        = Some (Returns l)) /\
    (forall fuel,
        (Z.to_nat (endTime' - startOfDay C startTime) <= fuel)%nat ->
        getDayBoundaries C fuel (Some startTime) (Some endTime')
        = Some (Returns (l ++ rest))).
Proof.
  intros Hee.
  destruct (getDayBoundaries_days C laws startTime endTime)
    as (l & last & Hrun & Hch & Hlast & Hbefore).
  destruct (getDayBoundaries_days C laws startTime endTime')
    as (l' & last' & Hrun' & Hch' & Hlast' & _).
  destruct (day_chain_prefix C laws _ _ _ Hch endTime endTime' l' last'
              (startOfDay_is_day_start C laws startTime) Hee Hbefore Hch' Hlast')
    as (rest & ->).
  exists l, rest. split; assumption.
Qed.

Lemma later_end_appends_days_witness :
  ZoneLaws NewYork /\
  example_noon <= example_midnight /\
  exists l rest : DayBoundaries,
    (forall fuel,
        (Z.to_nat (example_noon - startOfDay NewYork example_noon) <= fuel)%nat ->
        getDayBoundaries NewYork fuel (Some example_noon) (Some example_noon)
        = Some (Returns l)) /\
    (forall fuel,
        (Z.to_nat (example_midnight - startOfDay NewYork example_noon)
         <= fuel)%nat ->
        getDayBoundaries NewYork fuel (Some example_noon) (Some example_midnight)
        = Some (Returns (l ++ rest))).
Proof.
  assert (H : example_noon <= example_midnight) by (vm_compute; discriminate).
  split; [exact NewYork_laws|]. split; [exact H|].
  exact (later_end_appends_days NewYork NewYork_laws example_noon example_noon
           example_midnight H).
Defined.

End SegmenterGrowth.

(** ** The labels the chart component draws *)

Module DrawnLabels.
Import ChartComponent.



(** X24.  A series whose label has no colour scale in the table, and names
    no member the table inherits, cannot be drawn: in a chart of distinct
    labels its labels throw a TypeError as soon as it has an extreme point,
    and its path throws a TypeError as soon as its gradient has a value. *)
Theorem unregistered_label_throws
  (scaleTime : option Z * option Z -> Q * Q -> Z -> Q)
  (scaleLinear : option Q * option Q -> Q * Q -> Q -> Q)
  (turboScale : Q * Q -> Q -> string)
  (inheritedMember : string -> option ColorScale)
  (gradientValues : option Q -> option Q -> list Q)
  (tss : list TimeSeries) (dims : Dimensions) (ts : TimeSeries) :
  In ts tss -> NoDup (map label tss) ->
  ~ registered_label (label ts) -> inheritedMember (label ts) = None ->
  (getExtremePoints (points ts) <> [] ->
   labels (Chart_series scaleTime scaleLinear turboScale inheritedMember
             gradientValues tss dims ts) = Throws TypeError) /\
  (gradientValues (fst (extent Qlt_bool (map value (points ts))))
     (snd (extent Qlt_bool (map value (points ts)))) <> [] ->
   path (Chart_series scaleTime scaleLinear turboScale inheritedMember
           gradientValues tss dims ts) = Throws TypeError).
Proof.
  intros Hts Hnd Hnot Hinh.
  pose proof (LabelVisibility.unregistered_color_scale turboScale
                inheritedMember (label ts) Hnot) as Ecol.
  rewrite Hinh in Ecol. split.
  - intros Hne. unfold Chart_series. simpl.
    rewrite (LabelVisibility.extremePointsByTs_own tss ts Hts Hnd).
    destruct (getExtremePoints (points ts)) as [|q rest]; [congruence|].
    simpl. unfold Chart_label. now rewrite Ecol.
  - intros Hne. unfold Chart_series. simpl. unfold TsPath.
    rewrite Ecol.
    destruct (extent Qlt_bool (map value (points ts))) as [d0 d1].
    simpl in Hne.
    now rewrite (LabelVisibility.allReturned_undefined _ false Hne).
Qed.

Lemma unregistered_label_throws_witness :
  In example_wind [example_wind] /\
  NoDup (map label [example_wind]) /\
  ~ registered_label (label example_wind) /\
  example_no_inherited (label example_wind) = None /\
  (getExtremePoints (points example_wind) <> [] ->
   labels (Chart_series exact_scaleTime exact_scaleLinear example_turboScale
             example_no_inherited exact_gradientValues [example_wind]
             example_dims example_wind) = Throws TypeError) /\
  (exact_gradientValues
     (fst (extent Qlt_bool (map value (points example_wind))))
     (snd (extent Qlt_bool (map value (points example_wind)))) <> [] ->
   path (Chart_series exact_scaleTime exact_scaleLinear example_turboScale
           example_no_inherited exact_gradientValues [example_wind]
           example_dims example_wind) = Throws TypeError).
Proof.
  assert (Hts : In example_wind [example_wind]) by (left; reflexivity).
  assert (Hnd : NoDup (map label [example_wind]))
    by (constructor; [intros []|constructor]).
  assert (Hnot : ~ registered_label (label example_wind))
    by (intros [H|H]; discriminate H).
  assert (Hinh : example_no_inherited (label example_wind) = None)
    by reflexivity.
  split; [exact Hts|]. split; [exact Hnd|]. split; [exact Hnot|].
  split; [exact Hinh|].
  exact (unregistered_label_throws exact_scaleTime exact_scaleLinear
           example_turboScale example_no_inherited exact_gradientValues
           [example_wind] example_dims example_wind Hts Hnd Hnot Hinh).
Defined.

(** The series [example_wind] has an extreme point and a gradient: neither
    its labels nor its path are drawn. *)
Lemma wind_not_drawn :
  getExtremePoints (points example_wind) = [mkPoint 90000000 3 25] /\
  labels (Chart_series exact_scaleTime exact_scaleLinear example_turboScale
            example_no_inherited exact_gradientValues [example_wind]
            example_dims example_wind) = Throws TypeError /\
  path (Chart_series exact_scaleTime exact_scaleLinear example_turboScale
          example_no_inherited exact_gradientValues [example_wind]
          example_dims example_wind) = Throws TypeError.
Proof. vm_compute. repeat split. Qed.

(** X25.  [Chart] keeps the extreme points by label: of several series of
    one label, each is labelled at the extreme points of the last of them,
    placed among its own samples. *)
Theorem labels_keyed_by_label
  (scaleTime : option Z * option Z -> Q * Q -> Z -> Q)
  (scaleLinear : option Q * option Q -> Q * Q -> Q -> Q)
  (turboScale : Q * Q -> Q -> string)
  (inheritedMember : string -> option ColorScale)
  (gradientValues : option Q -> option Q -> list Q)
  (before after : list TimeSeries) (dims : Dimensions)
  (last ts : TimeSeries) :
  ~ In (label last) (map label after) ->
  label ts = label last ->
  labels (Chart_series scaleTime scaleLinear turboScale inheritedMember
            gradientValues (before ++ last :: after) dims ts)
  = drawLabels
      (map (Chart_label turboScale inheritedMember ts
              (xScale_of scaleTime (before ++ last :: after) dims)
              (yScale_of scaleLinear (before ++ last :: after) dims)
              (chartWidth (width dims)) (height dims))
         (getExtremePoints (points last))).
Proof.
  intros Hnot El. unfold Chart_series. simpl. rewrite El.
  now rewrite (LabelVisibility.extremePointsByTs_last before after last Hnot).
Qed.

Lemma labels_keyed_by_label_witness :
  ~ In (label example_flat) (map label []) /\
  label example_early_peak = label example_flat /\
  labels (Chart_series exact_scaleTime exact_scaleLinear example_turboScale
            example_no_inherited exact_gradientValues
            ([example_early_peak] ++ example_flat :: []) example_dims
            example_early_peak)
  = drawLabels
      (map (Chart_label example_turboScale example_no_inherited
              example_early_peak
              (xScale_of exact_scaleTime
                 ([example_early_peak] ++ example_flat :: []) example_dims)
              (yScale_of exact_scaleLinear
                 ([example_early_peak] ++ example_flat :: []) example_dims)
              (chartWidth (width example_dims)) (height example_dims))
         (getExtremePoints (points example_flat))).
Proof.
  assert (Hnot : ~ In (label example_flat) (map label []))
    by (intros []).
  assert (El : label example_early_peak = label example_flat)
    by reflexivity.
  split; [exact Hnot|]. split; [exact El|].
  exact (labels_keyed_by_label exact_scaleTime exact_scaleLinear
           example_turboScale example_no_inherited exact_gradientValues
           [example_early_peak] [] example_dims example_flat
           example_early_peak Hnot El).
Defined.

(** Followed by a flat series of the same label, the series with a peak
    has no label to draw: its own extreme point is not looked at. *)
Lemma peak_overwritten_by_flat :
  getExtremePoints (points example_early_peak) = [example_peak] /\
  getExtremePoints (points example_flat) = [] /\
  labels (Chart_series exact_scaleTime exact_scaleLinear example_turboScale
            example_no_inherited exact_gradientValues
            [example_early_peak; example_flat] example_dims
            example_early_peak)
  = Returns [].
Proof. vm_compute. repeat split. Qed.

End DrawnLabels.

(** ** Changing the unit of the values *)

Section UnitChange.

Variable f : Q -> Q.
Hypothesis f_increasing : forall a b : Q, (a < b)%Q <-> (f a < f b)%Q.

Lemma Qlt_bool_rescaled (a b : Q) : Qlt_bool (f a) (f b) = Qlt_bool a b.
Proof.
  destruct (Qlt_bool a b) eqn:E.
  - apply Qlt_bool_iff in E. apply Qlt_bool_iff.
    exact (proj1 (f_increasing a b) E).
  - destruct (Qlt_bool (f a) (f b)) eqn:E'; [|reflexivity].
    apply Qlt_bool_iff in E'. apply (proj2 (f_increasing a b)) in E'.
    apply Qlt_bool_iff in E'. congruence.
Qed.

Lemma at_index_map {A B : Type} (g : A -> B) (arr : list A) (k : Z) :
  at_index (map g arr) k = option_map g (at_index arr k).
Proof.
  unfold at_index. destruct (k <? 0); [reflexivity|]. apply nth_error_map.
Qed.

Lemma filteri_from_map {A B : Type} (g : A -> B)
  (F : A -> Z -> bool) (F' : B -> Z -> bool) (arr : list A) :
  (forall x k, F' (g x) k = F x k) ->
  forall k, filteri_from F' k (map g arr) = map g (filteri_from F k arr).
Proof.
  intros HF. induction arr as [|x rest IH]; intros k; simpl; [reflexivity|].
  rewrite HF, IH. now destruct (F x k).
Qed.

Lemma isInflection_rescaled (pts : list Point) (p : Point) (k : Z) :
  ChartComponent.isInflection (withValues f pts) (withValue f p) k
  = ChartComponent.isInflection pts p k.
Proof.
  unfold ChartComponent.isInflection, withValues, opt_field.
  rewrite !at_index_map.
  destruct (at_index pts (k - 1)) as [a|], (at_index pts (k + 1)) as [b|];
    simpl; rewrite ?Qlt_bool_rescaled; reflexivity.
Qed.

Lemma notTooClose_rescaled (ps : list Point) (p : Point) (k : Z) :
  ChartComponent.notTooClose (withValues f ps) (withValue f p) k
  = ChartComponent.notTooClose ps p k.
Proof.
  unfold ChartComponent.notTooClose, withValues, opt_field.
  rewrite at_index_map. now destruct (at_index ps (k - 1)).
Qed.

Lemma flagged_rescaled (pts : list Point) :
  ChartComponent.flagged (withValues f pts)
  = withValues f (ChartComponent.flagged pts).
Proof.
  unfold ChartComponent.flagged, filteri, withValues.
  apply filteri_from_map. intros x k. apply isInflection_rescaled.
Qed.

Lemma inflection_extremes_rescaled (pts : list Point) :
  ChartComponent.getExtremePoints (withValues f pts)
  = withValues f (ChartComponent.getExtremePoints pts).
Proof.
  unfold ChartComponent.getExtremePoints. cbv zeta.
  rewrite flagged_rescaled. unfold filteri, withValues.
  apply filteri_from_map. intros x k. apply notTooClose_rescaled.
Qed.

Lemma minIndex_loop_rescaled (rest : list Q) :
  forall (index : Z) (m : Q) (found : Z),
    minIndex_loop (map f rest) index (Some (f m)) found
    = minIndex_loop rest index (Some m) found.
Proof.
  induction rest as [|v rest IH]; intros index m found; simpl; [reflexivity|].
  rewrite Qlt_bool_rescaled. now rewrite !IH.
Qed.

Lemma maxIndex_loop_rescaled (rest : list Q) :
  forall (index : Z) (m : Q) (found : Z),
    maxIndex_loop (map f rest) index (Some (f m)) found
    = maxIndex_loop rest index (Some m) found.
Proof.
  induction rest as [|v rest IH]; intros index m found; simpl; [reflexivity|].
  rewrite Qlt_bool_rescaled. now rewrite !IH.
Qed.

Lemma pointsInBoundary_rescaled (b : Z * Z) (pts : list Point) :
  CoordinatesPage.pointsInBoundary b (withValues f pts)
  = withValues f (CoordinatesPage.pointsInBoundary b pts).
Proof.
  destruct b as [s e]. unfold CoordinatesPage.pointsInBoundary, withValues.
  induction pts as [|p rest IH]; simpl; [reflexivity|].
  rewrite IH. now destruct ((s <=? time p) && (time p <? e)).
Qed.

Lemma minIndex_rescaled (values : list Q) :
  minIndex (map f values) = minIndex values.
Proof.
  destruct values as [|v rest]; [reflexivity|].
  unfold minIndex. simpl. apply minIndex_loop_rescaled.
Qed.

Lemma maxIndex_rescaled (values : list Q) :
  maxIndex (map f values) = maxIndex values.
Proof.
  destruct values as [|v rest]; [reflexivity|].
  unfold maxIndex. simpl. apply maxIndex_loop_rescaled.
Qed.

Lemma values_rescaled (pts : list Point) :
  map value (withValues f pts) = map f (map value pts).
Proof.
  unfold withValues. rewrite !map_map. reflexivity.
Qed.

Lemma bucket_extremes_rescaled (dbs : DayBoundaries) (pts : list Point) :
  CoordinatesPage.getExtremePoints dbs (withValues f pts)
  = map (option_map (withValue f)) (CoordinatesPage.getExtremePoints dbs pts).
Proof.
  unfold CoordinatesPage.getExtremePoints.
  induction dbs as [|b dbs IH]; simpl; [reflexivity|].
  rewrite IH, pointsInBoundary_rescaled, values_rescaled,
    minIndex_rescaled, maxIndex_rescaled.
  unfold withValues. now rewrite !at_index_map.
Qed.

End UnitChange.

Lemma example_unit_increasing (a b : Q) :
  (a < b)%Q <-> (example_unit a < example_unit b)%Q.
Proof.
  unfold example_unit. split; intros H; lra.
Qed.

Module UnitInvariance.

(** X22.  The inflection policy only compares values: sending the values
    of a series through a strictly increasing change of unit changes the
    values of its extreme points and nothing else. *)
Theorem inflection_extremes_unit_free (f : Q -> Q) (pts : list Point) :
  (forall a b : Q, (a < b)%Q <-> (f a < f b)%Q) ->
  ChartComponent.getExtremePoints (withValues f pts)
  = withValues f (ChartComponent.getExtremePoints pts).
Proof.
  intros Hf. now apply inflection_extremes_rescaled.
Qed.

Lemma inflection_extremes_unit_free_witness :
  (forall a b : Q,
      (a < b)%Q <-> (example_unit a < example_unit b)%Q) /\
  ChartComponent.getExtremePoints (withValues example_unit example_13251)
  = withValues example_unit (ChartComponent.getExtremePoints example_13251).
Proof.
  split; [exact example_unit_increasing|].
  exact (inflection_extremes_unit_free example_unit example_13251
           example_unit_increasing).
Defined.

(** X23.  So does the per-day-bucket policy: after a strictly increasing
    change of unit every entry of the output, defined or not, is the entry
    it was, with its value changed. *)
Theorem bucket_extremes_unit_free (f : Q -> Q) (dbs : DayBoundaries)
  (pts : list Point) :
  (forall a b : Q, (a < b)%Q <-> (f a < f b)%Q) ->
  CoordinatesPage.getExtremePoints dbs (withValues f pts)
  = map (option_map (withValue f))
      (CoordinatesPage.getExtremePoints dbs pts).
Proof.
  intros Hf. now apply bucket_extremes_rescaled.
Qed.

Lemma bucket_extremes_unit_free_witness :
  (forall a b : Q,
      (a < b)%Q <-> (example_unit a < example_unit b)%Q) /\
  CoordinatesPage.getExtremePoints [example_bucket]
    (withValues example_unit example_5193)
  = map (option_map (withValue example_unit))
      (CoordinatesPage.getExtremePoints [example_bucket] example_5193).
Proof.
  split; [exact example_unit_increasing|].
  exact (bucket_extremes_unit_free example_unit [example_bucket]
           example_5193 example_unit_increasing).
Defined.

End UnitInvariance.
